(** * Boost Ball Arena backend: profile store, match ledger, progression

    A shallow embedding of [backend/server.py].  Every endpoint is a function
    from the database (three collections) to an outcome and the database it
    leaves behind; a Python exception is an outcome too, and the database
    returned with it holds whatever was written before the [raise].

    Python integers are unbounded, hence [Z]; the store holds integers of
    at most 8 bytes, and its driver raises [OverflowError] when a document,
    a [$set] or a limit it has to encode carries a larger one, before
    anything reaches the store.  A [datetime] is an instant on
    the clock, a [Z]; the ISO-8601 text stored for it and parsed back on read
    is not modelled.  [uuid.uuid4()] and [datetime.now()] are inputs of the
    endpoint that calls them ([new_id], [now]). *)

From Equations Require Import Equations.
From Stdlib Require Import ZArith List String Bool Lia Sorted Permutation.
Import ListNotations.

Local Open Scope string_scope.
Local Open Scope Z_scope.

(** ** Pydantic models *)

Module Player.
Record t := mk {
  id : string;
  username : string;
  email : string;
  avatar : string;
  level : Z;
  xp : Z;
  coins : Z;
  diamonds : Z;
  rank : string;
  wins : Z;
  losses : Z;
  goals : Z;
  created_at : Z
}.
End Player.

Module PlayerCreate.
Record t := mk {
  username : string;
  email : string
}.
End PlayerCreate.

(** [PlayerUpdate] and the dictionaries handed to [$set]: a field that is
    [None] is a key the dictionary does not have. *)
Module PlayerUpdate.
Record t := mk {
  avatar : option string;
  level : option Z;
  xp : option Z;
  coins : option Z;
  diamonds : option Z;
  rank : option string;
  wins : option Z;
  losses : option Z;
  goals : option Z
}.

Definition empty : t := mk None None None None None None None None None.

(** [not d] for such a dictionary [d]. *)
Definition is_empty (u : t) : bool :=
  match avatar u, level u, xp u, coins u, diamonds u,
        rank u, wins u, losses u, goals u with
  | None, None, None, None, None, None, None, None, None => true
  | _, _, _, _, _, _, _, _, _ => false
  end.

(** [d[key] = v], for the keys the server assigns. *)
Definition set_level (v : Z) (u : t) : t :=
  mk (avatar u) (Some v) (xp u) (coins u) (diamonds u)
     (rank u) (wins u) (losses u) (goals u).
Definition set_rank (v : string) (u : t) : t :=
  mk (avatar u) (level u) (xp u) (coins u) (diamonds u)
     (Some v) (wins u) (losses u) (goals u).
Definition set_wins (v : Z) (u : t) : t :=
  mk (avatar u) (level u) (xp u) (coins u) (diamonds u)
     (rank u) (Some v) (losses u) (goals u).
Definition set_losses (v : Z) (u : t) : t :=
  mk (avatar u) (level u) (xp u) (coins u) (diamonds u)
     (rank u) (wins u) (Some v) (goals u).
End PlayerUpdate.

Module CarCustomization.
Record t := mk {
  id : string;
  player_id : string;
  car_model : string;
  body_color : string;
  decal : string;
  wheels : string;
  boost_effect : string;
  goal_explosion : string;
  updated_at : Z
}.
End CarCustomization.

Module MatchResultCreate.
Record t := mk {
  player_id : string;
  match_type : string;
  result : string;
  player_goals : Z;
  opponent_goals : Z;
  duration : Z;
  xp_earned : Z;
  coins_earned : Z
}.
End MatchResultCreate.

Module MatchResult.
Record t := mk {
  id : string;
  player_id : string;
  match_type : string;
  result : string;
  player_goals : Z;
  opponent_goals : Z;
  duration : Z;
  xp_earned : Z;
  coins_earned : Z;
  timestamp : Z
}.
End MatchResult.

Module Leaderboard.
Record t := mk {
  username : string;
  wins : Z;
  goals : Z;
  rank : string;
  level : Z
}.
End Leaderboard.

(** A request body for a new customization.  Its cosmetic fields are
    [Optional] with a default: a field left out arrives as the default, a
    field sent as [null] arrives as [None]. *)
Module CarCustomizationCreate.
Record t := mk {
  player_id : string;
  car_model : option string;
  body_color : option string;
  decal : option string;
  wheels : option string;
  boost_effect : option string;
  goal_explosion : option string
}.
End CarCustomizationCreate.

(** [CarCustomizationUpdate] and the dictionary made of it: [None] is a key
    the dictionary does not have. *)
Module CarCustomizationUpdate.
Record t := mk {
  car_model : option string;
  body_color : option string;
  decal : option string;
  wheels : option string;
  boost_effect : option string;
  goal_explosion : option string
}.

Definition empty : t := mk None None None None None None.

Definition is_empty (u : t) : bool :=
  match car_model u, body_color u, decal u, wheels u,
        boost_effect u, goal_explosion u with
  | None, None, None, None, None, None => true
  | _, _, _, _, _, _ => false
  end.
End CarCustomizationUpdate.

(** ** Outcomes *)

Inductive Exception :=
| HTTPException (status_code : Z) (detail : string)
| KeyError (key : string)
| ValueError (message : string)
| AttributeError (message : string)
| OverflowError (message : string).

Inductive Outcome (A : Type) :=
| Return (a : A)
| Raise (e : Exception).
Arguments Return {A} a.
Arguments Raise {A} e.

Definition bind {A B : Type} (o : Outcome A) (k : A -> Outcome B) : Outcome B :=
  match o with
  | Return a => k a
  | Raise e => Raise e
  end.

Notation "x <- o ;; k" := (bind o (fun x => k))
  (at level 61, o at next level, right associativity).

(** [d[key]] on a dictionary whose entry for [key] is [entry]. *)
Definition getitem {A : Type} (key : string) (entry : option A) : Outcome A :=
  match entry with
  | Some v => Return v
  | None => Raise (KeyError key)
  end.

(** ** The document store *)

(** The integers the store can hold: signed, 8 bytes. *)
Definition int64 (v : Z) : Prop := - 2 ^ 63 <= v < 2 ^ 63.

Definition is_int64 (v : Z) : bool := (- 2 ^ 63 <=? v) && (v <? 2 ^ 63).

(** What the driver raises when it is given a larger one to encode. *)
Definition overflow : Exception :=
  OverflowError "MongoDB can only handle up to 8-byte ints".

Record DB := mkDB {
  players : list Player.t;
  customizations : list CarCustomization.t;
  matches : list MatchResult.t
}.

Section Collection.
Context {A : Type}.

(** [find_one]: the first document, in storage order, that the filter
    accepts. *)
Definition find_one (filter : A -> bool) (c : list A) : option A :=
  List.find filter c.

(** [insert_one]: the document goes to the end of the collection. *)
Definition insert_one (doc : A) (c : list A) : list A := c ++ [doc].

(** [update_one]: the first document the filter accepts is rewritten, the
    others stay; the count of matched documents (0 or 1) comes back with
    the collection. *)
Fixpoint update_one (filter : A -> bool) (set : A -> A) (c : list A)
  : Z * list A :=
  match c with
  | [] => (0, [])
  | d :: c' =>
      if filter d then (1, set d :: c')
      else let '(n, c'') := update_one filter set c' in (n, d :: c'')
  end.

(** [.sort(key, -1)]: descending on an integer key.  The order of
    documents with equal keys is the store's business; this model keeps
    them in storage order. *)
Fixpoint insert_desc (key : A -> Z) (d : A) (c : list A) : list A :=
  match c with
  | [] => [d]
  | e :: c' =>
      if key e <=? key d then d :: e :: c'
      else e :: insert_desc key d c'
  end.

Fixpoint sort_desc (key : A -> Z) (c : list A) : list A :=
  match c with
  | [] => []
  | d :: c' => insert_desc key d (sort_desc key c')
  end.

(** [.limit(n).to_list(n)]: [to_list] refuses a negative length; then the
    query goes out with the limit in it, which the driver has to encode;
    otherwise at most [n] documents are handed over, none for [n = 0]. *)
Definition to_list (n : Z) (c : list A) : Outcome (list A) :=
  if n <? 0 then Raise (ValueError "length must be non-negative")
  else if negb (is_int64 n) then Raise overflow
  else Return (firstn (Z.to_nat n) c).
End Collection.

(** ** Progression: the level-up loop

    [while new_xp >= new_level * 100: new_xp -= new_level * 100;
    new_level += 1], returning both locals at exit.  The sum
    [new_xp + 50 * new_level * (new_level - 1)] is the same before and after
    an iteration, and an iteration runs only while [new_level] is at most
    that sum, which gives the measure. *)

Definition loop_measure (new_xp new_level : Z) : nat :=
  Z.to_nat (new_xp + 50 * new_level * (new_level - 1) + 1 - new_level).

Equations? level_up (new_xp new_level : Z) : Z * Z
  by wf (loop_measure new_xp new_level) lt :=
  level_up new_xp new_level with Z_ge_dec new_xp (new_level * 100) => {
    | left _ := level_up (new_xp - new_level * 100) (new_level + 1);
    | right _ := (new_xp, new_level) }.
Proof.
  unfold loop_measure.
  assert (Hsq : 0 <= new_level * new_level /\
                - new_level <= new_level * new_level) by nia.
  apply Z2Nat.inj_lt; lia.
Qed.

(** ** Player endpoints *)

Definition by_email (e : string) (p : Player.t) : bool :=
  String.eqb (Player.email p) e.

Definition by_id (i : string) (p : Player.t) : bool :=
  String.eqb (Player.id p) i.

(** The [Player] built from [player_data]: the two given fields and the
    defaults of the model. *)
Definition new_player (new_id : string) (now : Z) (player_data : PlayerCreate.t)
  : Player.t :=
  Player.mk new_id
            (PlayerCreate.username player_data)
            (PlayerCreate.email player_data)
            "default" 1 0 1000 50 "Bronze" 0 0 0 now.

Definition create_player (new_id : string) (now : Z)
    (player_data : PlayerCreate.t) (db : DB) : Outcome Player.t * DB :=
  match find_one (by_email (PlayerCreate.email player_data)) (players db) with
  | Some _ =>
      (Raise (HTTPException 400 "Player with this email already exists"), db)
  | None =>
      let player := new_player new_id now player_data in
      (Return player,
       mkDB (insert_one player (players db)) (customizations db) (matches db))
  end.

Definition get_player (player_id : string) (db : DB) : Outcome Player.t :=
  match find_one (by_id player_id) (players db) with
  | None => Raise (HTTPException 404 "Player not found")
  | Some player => Return player
  end.

Definition get_player_by_email (email : string) (db : DB) : Outcome Player.t :=
  match find_one (by_email email) (players db) with
  | None => Raise (HTTPException 404 "Player not found")
  | Some player => Return player
  end.

(** [{"$set": d}] on a player document: the keys of [d] are overwritten, the
    other fields stay. *)
Definition or_old {A : Type} (entry : option A) (old : A) : A :=
  match entry with
  | Some v => v
  | None => old
  end.

Definition set_player (d : PlayerUpdate.t) (p : Player.t) : Player.t :=
  Player.mk (Player.id p) (Player.username p) (Player.email p)
            (or_old (PlayerUpdate.avatar d) (Player.avatar p))
            (or_old (PlayerUpdate.level d) (Player.level p))
            (or_old (PlayerUpdate.xp d) (Player.xp p))
            (or_old (PlayerUpdate.coins d) (Player.coins p))
            (or_old (PlayerUpdate.diamonds d) (Player.diamonds p))
            (or_old (PlayerUpdate.rank d) (Player.rank p))
            (or_old (PlayerUpdate.wins d) (Player.wins p))
            (or_old (PlayerUpdate.losses d) (Player.losses p))
            (or_old (PlayerUpdate.goals d) (Player.goals p))
            (Player.created_at p).

(** Whether the driver can encode a [$set] over the player fields: every
    integer in it has to fit. *)
Definition entry_encodes (entry : option Z) : bool :=
  match entry with
  | Some v => is_int64 v
  | None => true
  end.

Definition set_encodes (d : PlayerUpdate.t) : bool :=
  entry_encodes (PlayerUpdate.level d)
  && entry_encodes (PlayerUpdate.xp d)
  && entry_encodes (PlayerUpdate.coins d)
  && entry_encodes (PlayerUpdate.diamonds d)
  && entry_encodes (PlayerUpdate.wins d)
  && entry_encodes (PlayerUpdate.losses d)
  && entry_encodes (PlayerUpdate.goals d).

(** [update_data] keeps the fields of [updates] that are not [None], which
    in this representation is [updates] itself.  [update_one] encodes its
    [$set] before the store sees the request. *)
Definition update_player (player_id : string) (updates : PlayerUpdate.t)
    (db : DB) : Outcome Player.t * DB :=
  let update_data := updates in
  if PlayerUpdate.is_empty update_data then
    (Raise (HTTPException 400 "No valid fields to update"), db)
  else if negb (set_encodes update_data) then (Raise overflow, db)
  else
    let '(matched_count, ps) :=
      update_one (by_id player_id) (set_player update_data) (players db) in
    let db := mkDB ps (customizations db) (matches db) in
    if matched_count =? 0 then
      (Raise (HTTPException 404 "Player not found"), db)
    else
      match find_one (by_id player_id) (players db) with
      | Some updated_player => (Return updated_player, db)
      | None =>
          (Raise (AttributeError "'NoneType' object has no attribute 'get'"),
           db)
      end.

(** ** Car customization endpoints *)

Definition by_player_id (i : string) (c : CarCustomization.t) : bool :=
  String.eqb (CarCustomization.player_id c) i.

(** [CarCustomization(player_id=player_id)] *)
Definition default_customization (new_id : string) (now : Z)
    (player_id : string) : CarCustomization.t :=
  CarCustomization.mk new_id player_id
                      "default" "#3B82F6" "none" "default" "blue" "default"
                      now.

Definition get_customization (new_id : string) (now : Z) (player_id : string)
    (db : DB) : Outcome CarCustomization.t * DB :=
  match find_one (by_player_id player_id) (customizations db) with
  | None =>
      let default_custom := default_customization new_id now player_id in
      (Return default_custom,
       mkDB (players db) (insert_one default_custom (customizations db))
            (matches db))
  | Some custom => (Return custom, db)
  end.

(** The [CarCustomization] built from [custom_data].  The fields of
    [CarCustomization] are plain strings, so a [None] among them is refused
    by the model's validation; pydantic's [ValidationError] is a
    [ValueError], and of its text only the name of the model is kept. *)
Definition new_customization (new_id : string) (now : Z)
    (custom_data : CarCustomizationCreate.t) : Outcome CarCustomization.t :=
  match CarCustomizationCreate.car_model custom_data,
        CarCustomizationCreate.body_color custom_data,
        CarCustomizationCreate.decal custom_data,
        CarCustomizationCreate.wheels custom_data,
        CarCustomizationCreate.boost_effect custom_data,
        CarCustomizationCreate.goal_explosion custom_data with
  | Some car_model, Some body_color, Some decal, Some wheels,
    Some boost_effect, Some goal_explosion =>
      Return (CarCustomization.mk
                new_id (CarCustomizationCreate.player_id custom_data)
                car_model body_color decal wheels boost_effect goal_explosion
                now)
  | _, _, _, _, _, _ => Raise (ValueError "CarCustomization")
  end.

Definition create_customization (new_id : string) (now : Z)
    (custom_data : CarCustomizationCreate.t) (db : DB)
  : Outcome CarCustomization.t * DB :=
  match find_one (by_player_id (CarCustomizationCreate.player_id custom_data))
                 (customizations db) with
  | Some _ =>
      (Raise (HTTPException 400 "Customization already exists for this player"),
       db)
  | None =>
      match new_customization new_id now custom_data with
      | Raise e => (Raise e, db)
      | Return customization =>
          (Return customization,
           mkDB (players db) (insert_one customization (customizations db))
                (matches db))
      end
  end.

(** [{"$set": d}] on a customization document, where [d] is the dictionary
    of the request with [updated_at] added. *)
Definition set_customization (d : CarCustomizationUpdate.t) (updated_at : Z)
    (c : CarCustomization.t) : CarCustomization.t :=
  CarCustomization.mk
    (CarCustomization.id c) (CarCustomization.player_id c)
    (or_old (CarCustomizationUpdate.car_model d) (CarCustomization.car_model c))
    (or_old (CarCustomizationUpdate.body_color d)
            (CarCustomization.body_color c))
    (or_old (CarCustomizationUpdate.decal d) (CarCustomization.decal c))
    (or_old (CarCustomizationUpdate.wheels d) (CarCustomization.wheels c))
    (or_old (CarCustomizationUpdate.boost_effect d)
            (CarCustomization.boost_effect c))
    (or_old (CarCustomizationUpdate.goal_explosion d)
            (CarCustomization.goal_explosion c))
    updated_at.

Definition update_customization (now : Z) (player_id : string)
    (updates : CarCustomizationUpdate.t) (db : DB)
  : Outcome CarCustomization.t * DB :=
  let update_data := updates in
  if CarCustomizationUpdate.is_empty update_data then
    (Raise (HTTPException 400 "No valid fields to update"), db)
  else
    let '(matched_count, cs) :=
      update_one (by_player_id player_id) (set_customization update_data now)
                 (customizations db) in
    let db := mkDB (players db) cs (matches db) in
    if matched_count =? 0 then
      (Raise (HTTPException 404 "Customization not found"), db)
    else
      match find_one (by_player_id player_id) (customizations db) with
      | Some updated => (Return updated, db)
      | None =>
          (Raise (AttributeError "'NoneType' object has no attribute 'get'"),
           db)
      end.

(** ** Match result endpoints *)

(** The [MatchResult] built from [match_data]. *)
Definition new_match (new_id : string) (now : Z)
    (match_data : MatchResultCreate.t) : MatchResult.t :=
  MatchResult.mk new_id
                 (MatchResultCreate.player_id match_data)
                 (MatchResultCreate.match_type match_data)
                 (MatchResultCreate.result match_data)
                 (MatchResultCreate.player_goals match_data)
                 (MatchResultCreate.opponent_goals match_data)
                 (MatchResultCreate.duration match_data)
                 (MatchResultCreate.xp_earned match_data)
                 (MatchResultCreate.coins_earned match_data)
                 now.

(** The body of [if player:] up to the write: the dictionary [updates] as it
    stands when [update_one] is reached, or the exception raised on the way.
    A player document is written by [create_player] with every field, so
    [player.get(k, default)] is the field [k]. *)
Definition stat_updates (player : Player.t) (match_data : MatchResultCreate.t)
  : Outcome PlayerUpdate.t :=
  let updates :=
    PlayerUpdate.mk
      None None
      (Some (Player.xp player + MatchResultCreate.xp_earned match_data))
      (Some (Player.coins player + MatchResultCreate.coins_earned match_data))
      None None None None
      (Some (Player.goals player + MatchResultCreate.player_goals match_data))
  in
  let updates :=
    if String.eqb (MatchResultCreate.result match_data) "win"
    then PlayerUpdate.set_wins (Player.wins player + 1) updates
    else PlayerUpdate.set_losses (Player.losses player + 1) updates in
  (* Level up logic; the [new_xp] that the loop leaves is not read again *)
  new_xp <- getitem "xp" (PlayerUpdate.xp updates) ;;
  let new_level := Player.level player in
  let '(new_xp, new_level) := level_up new_xp new_level in
  let updates := PlayerUpdate.set_level new_level updates in
  (* Rank progression *)
  wins <- getitem "wins" (PlayerUpdate.wins updates) ;;
  Return
    (if 50 <=? wins then PlayerUpdate.set_rank "Diamond" updates
     else if 30 <=? wins then PlayerUpdate.set_rank "Platinum" updates
     else if 15 <=? wins then PlayerUpdate.set_rank "Gold" updates
     else if 5 <=? wins then PlayerUpdate.set_rank "Silver" updates
     else updates).

(** Whether the driver can encode a match document. *)
Definition match_encodes (m : MatchResult.t) : bool :=
  is_int64 (MatchResult.player_goals m)
  && is_int64 (MatchResult.opponent_goals m)
  && is_int64 (MatchResult.duration m)
  && is_int64 (MatchResult.xp_earned m)
  && is_int64 (MatchResult.coins_earned m).

(** [insert_one] and [update_one] each encode what they are given before
    the store sees the request. *)
Definition create_match_result (new_id : string) (now : Z)
    (match_data : MatchResultCreate.t) (db : DB)
  : Outcome MatchResult.t * DB :=
  let match_ := new_match new_id now match_data in
  if negb (match_encodes match_) then (Raise overflow, db)
  else
    let db :=
      mkDB (players db) (customizations db)
           (insert_one match_ (matches db)) in
    (* Update player stats *)
    match find_one (by_id (MatchResultCreate.player_id match_data))
                   (players db) with
    | None => (Return match_, db)
    | Some player =>
        match stat_updates player match_data with
        | Raise e => (Raise e, db)
        | Return updates =>
            if negb (set_encodes updates) then (Raise overflow, db)
            else
              let '(_, ps) :=
                update_one (by_id (MatchResultCreate.player_id match_data))
                           (set_player updates) (players db) in
              (Return match_, mkDB ps (customizations db) (matches db))
        end
    end.

Definition of_player (i : string) (m : MatchResult.t) : bool :=
  String.eqb (MatchResult.player_id m) i.

(** A query parameter declared [limit: int = 10]. *)
Definition limit_or_default (limit : option Z) : Z :=
  match limit with
  | Some n => n
  | None => 10
  end.

Definition get_player_matches (player_id : string) (limit : option Z)
    (db : DB) : Outcome (list MatchResult.t) :=
  let limit := limit_or_default limit in
  to_list limit
    (sort_desc MatchResult.timestamp
               (filter (of_player player_id) (matches db))).

(** ** Leaderboard endpoint *)

(** The projection [username, wins, goals, rank, level] read as a
    [Leaderboard]. *)
Definition leaderboard_entry (p : Player.t) : Leaderboard.t :=
  Leaderboard.mk (Player.username p) (Player.wins p) (Player.goals p)
                 (Player.rank p) (Player.level p).

Definition get_leaderboard (limit : option Z) (db : DB)
  : Outcome (list Leaderboard.t) :=
  let limit := limit_or_default limit in
  players <- to_list limit (sort_desc Player.wins (players db)) ;;
  Return (map leaderboard_entry players).

(** ** The specification's rank table

    This definition follows the words of the specification (thresholds
    evaluated highest first, Bronze below 5 wins); it is what the stored
    rank is compared with. *)
Definition rank_for_wins (wins : Z) : string :=
  if 50 <=? wins then "Diamond"
  else if 30 <=? wins then "Platinum"
  else if 15 <=? wins then "Gold"
  else if 5 <=? wins then "Silver"
  else "Bronze".

(** The specification's invariant on a player at rest. *)
Definition xp_normalised (p : Player.t) : Prop :=
  0 <= Player.xp p < Player.level p * 100.

(** ** Sample data *)

Definition alice : Player.t :=
  Player.mk "p1" "alice" "alice@example.com" "default"
            1 0 1000 50 "Bronze" 0 0 0 0.

(** Level 1 with 80 xp. *)
Definition bob : Player.t :=
  Player.mk "p2" "bob" "bob@example.com" "default"
            1 80 1000 50 "Bronze" 0 0 0 0.

(** Three wins on record and a stored rank of Gold. *)
Definition carol : Player.t :=
  Player.mk "p3" "carol" "carol@example.com" "default"
            1 0 1000 50 "Gold" 3 0 0 0.

Definition db_alice : DB := mkDB [alice] [] [].
Definition db_bob : DB := mkDB [bob] [] [].
Definition db_carol : DB := mkDB [carol] [] [].

Definition alice_loses : MatchResultCreate.t :=
  MatchResultCreate.mk "p1" "1v1" "loss" 1 3 300 50 20.

Definition alice_wins_350 : MatchResultCreate.t :=
  MatchResultCreate.mk "p1" "1v1" "win" 3 1 300 350 20.

Definition bob_wins_50 : MatchResultCreate.t :=
  MatchResultCreate.mk "p2" "1v1" "win" 3 1 300 50 20.

Definition carol_wins : MatchResultCreate.t :=
  MatchResultCreate.mk "p3" "1v1" "win" 3 1 300 50 20.

(** What the store holds for them once their matches are recorded. *)
Definition alice_after_350 : Player.t :=
  Player.mk "p1" "alice" "alice@example.com" "default"
            3 350 1020 50 "Bronze" 1 0 3 0.

Definition bob_after_50 : Player.t :=
  Player.mk "p2" "bob" "bob@example.com" "default"
            2 130 1020 50 "Bronze" 1 0 3 0.

Definition carol_after : Player.t :=
  Player.mk "p3" "carol" "carol@example.com" "default"
            1 50 1020 50 "Gold" 4 0 3 0.

(** A match reported for an id no player has. *)
Definition ghost_match : MatchResultCreate.t :=
  MatchResultCreate.mk "ghost" "2v2" "win" 4 2 240 75 30.

(** [new] is what [$set] with the entry [entry] leaves in a field that held
    [old]. *)
Definition applied {A : Type} (entry : option A) (old new : A) : Prop :=
  match entry with
  | Some v => new = v
  | None => new = old
  end.

Definition coins_patch : PlayerUpdate.t :=
  PlayerUpdate.mk None None None (Some 1500) None None None None None.

Definition alice_1500 : Player.t :=
  Player.mk "p1" "alice" "alice@example.com" "default"
            1 0 1500 50 "Bronze" 0 0 0 0.

(** A request that sets level, xp, coins and wins to values no match could
    produce, and Alice after it. *)
Definition wild_patch : PlayerUpdate.t :=
  PlayerUpdate.mk None (Some 2) (Some 500) (Some (-7)) None None
                  (Some (-1)) None None.

Definition alice_wild : Player.t :=
  Player.mk "p1" "alice" "alice@example.com" "default"
            2 500 (-7) 50 "Bronze" (-1) 0 0 0.

Definition dave_data : PlayerCreate.t :=
  PlayerCreate.mk "dave" "dave@example.com".

Definition alice_again : PlayerCreate.t :=
  PlayerCreate.mk "alice2" "alice@example.com".

(** Three players with 10, 50 and 5 wins, in storage order. *)
Definition ten : Player.t :=
  Player.mk "q1" "ten" "ten@example.com" "default"
            4 20 1000 50 "Silver" 10 2 31 0.
Definition fifty : Player.t :=
  Player.mk "q2" "fifty" "fifty@example.com" "default"
            9 310 1000 50 "Diamond" 50 7 160 0.
Definition five : Player.t :=
  Player.mk "q3" "five" "five@example.com" "default"
            2 150 1000 50 "Silver" 5 5 12 0.

Definition db_three : DB := mkDB [ten; fifty; five] [] [].

(** ** Invariants of the store *)

(** One player per email. *)
Definition unique_emails (db : DB) : Prop :=
  NoDup (map Player.email (players db)).

(** One customization per player id. *)
Definition unique_customizations (db : DB) : Prop :=
  NoDup (map CarCustomization.player_id (customizations db)).

(** The cost of the levels below [level]: 100 + 200 + ... *)
Definition levels_cost (level : Z) : Z := 50 * level * (level - 1).

(** More sample data. *)
Definition red_wheels : CarCustomizationUpdate.t :=
  CarCustomizationUpdate.mk None (Some "#FF0000") None (Some "spiked")
                            None None.

Definition alice_car_data : CarCustomizationCreate.t :=
  CarCustomizationCreate.mk "p1" (Some "octane") (Some "#00FF00")
                            (Some "flames") (Some "default") (Some "blue")
                            (Some "default").

Definition alice_car_null : CarCustomizationCreate.t :=
  CarCustomizationCreate.mk "p1" None (Some "#00FF00")
                            (Some "flames") (Some "default") (Some "blue")
                            (Some "default").

Definition alice_car : CarCustomization.t :=
  CarCustomization.mk "c1" "p1" "octane" "#00FF00" "flames" "default" "blue"
                      "default" 10.

Definition db_alice_car : DB := mkDB [alice] [alice_car] [].

Definition match_a1 : MatchResult.t :=
  MatchResult.mk "m1" "p1" "1v1" "win" 3 1 300 50 20 100.
Definition match_b1 : MatchResult.t :=
  MatchResult.mk "m2" "p2" "1v1" "loss" 0 1 300 10 5 200.
Definition match_a2 : MatchResult.t :=
  MatchResult.mk "m3" "p1" "2v2" "win" 2 0 280 50 20 300.

Definition db_ledger : DB := mkDB [alice; bob] [] [match_a1; match_b1; match_a2].

(** ** What fits the store *)

(** The integers of a submitted match fit. *)
Definition match_fits (match_data : MatchResultCreate.t) : Prop :=
  int64 (MatchResultCreate.player_goals match_data)
  /\ int64 (MatchResultCreate.opponent_goals match_data)
  /\ int64 (MatchResultCreate.duration match_data)
  /\ int64 (MatchResultCreate.xp_earned match_data)
  /\ int64 (MatchResultCreate.coins_earned match_data).

(** The totals that a won match writes for a player fit. *)
Definition totals_fit (player : Player.t) (match_data : MatchResultCreate.t)
  : Prop :=
  int64 (Player.xp player + MatchResultCreate.xp_earned match_data)
  /\ int64 (Player.coins player + MatchResultCreate.coins_earned match_data)
  /\ int64 (Player.goals player + MatchResultCreate.player_goals match_data)
  /\ int64 (Player.wins player + 1)
  /\ int64 (snd (level_up (Player.xp player
                           + MatchResultCreate.xp_earned match_data)
                          (Player.level player))).

(** The integers supplied in an update fit. *)
Definition entry_fits (entry : option Z) : Prop :=
  match entry with
  | Some v => int64 v
  | None => True
  end.

Definition update_fits (d : PlayerUpdate.t) : Prop :=
  entry_fits (PlayerUpdate.level d)
  /\ entry_fits (PlayerUpdate.xp d)
  /\ entry_fits (PlayerUpdate.coins d)
  /\ entry_fits (PlayerUpdate.diamonds d)
  /\ entry_fits (PlayerUpdate.wins d)
  /\ entry_fits (PlayerUpdate.losses d)
  /\ entry_fits (PlayerUpdate.goals d).

(** Sample data at the edge of the store's integers. *)
Definition ghost_match_huge : MatchResultCreate.t :=
  MatchResultCreate.mk "ghost" "2v2" "win" 4 2 240 9223372036854775808 30.

Definition huge_patch : PlayerUpdate.t :=
  PlayerUpdate.mk None None None (Some 9223372036854775808) None None
                  None None None.

(** A player whose coins are the largest the store holds. *)
Definition midas : Player.t :=
  Player.mk "p4" "midas" "midas@example.com" "default"
            1 0 9223372036854775807 50 "Bronze" 0 0 0 0.

Definition db_midas : DB := mkDB [midas] [] [].

Definition midas_wins : MatchResultCreate.t :=
  MatchResultCreate.mk "p4" "1v1" "win" 1 0 300 10 1.

(** * Properties *)

Example level_up_130 : level_up 130 1 = (30, 2).
Proof. reflexivity. Qed.

Example level_up_350 : level_up 350 1 = (50, 3).
Proof. reflexivity. Qed.

(** ** The level-up loop *)

(** With a level of at least 1 and no xp debt, the loop exits with the xp
    left over below the cost of the level reached; the level never drops and
    the xp paid is the cost of the levels passed. *)
Lemma level_up_exit (new_xp new_level : Z) :
  1 <= new_level -> 0 <= new_xp ->
  0 <= fst (level_up new_xp new_level)
    < snd (level_up new_xp new_level) * 100
  /\ new_level <= snd (level_up new_xp new_level)
  /\ fst (level_up new_xp new_level)
     + 50 * snd (level_up new_xp new_level)
          * (snd (level_up new_xp new_level) - 1)
     = new_xp + 50 * new_level * (new_level - 1).
Proof.
  funelim (level_up new_xp new_level); intros Hl Hx.
  - match goal with
    | IH : _ -> _ -> _ /\ _ |- _ =>
        destruct IH as (Hb & Hle & Hsum); [lia | lia |]
    end.
    repeat split; lia.
  - simpl. repeat split; lia.
Qed.

(** Below the cost of its level the loop does not run. *)
Lemma level_up_below (new_xp new_level : Z) :
  new_xp < new_level * 100 -> level_up new_xp new_level = (new_xp, new_level).
Proof.
  intros H. funelim (level_up new_xp new_level); [lia | reflexivity].
Qed.

(** One turn of the loop. *)
Lemma level_up_step (new_xp new_level : Z) :
  new_xp >= new_level * 100 ->
  level_up new_xp new_level
  = level_up (new_xp - new_level * 100) (new_level + 1).
Proof.
  intros H. funelim (level_up new_xp new_level); [reflexivity | lia].
Qed.

(** ** The document store *)

Lemma is_int64_true v : is_int64 v = true <-> int64 v.
Proof.
  unfold is_int64, int64.
  rewrite andb_true_iff, Z.leb_le, Z.ltb_lt. reflexivity.
Qed.

Lemma is_int64_false v : is_int64 v = false <-> ~ int64 v.
Proof.
  rewrite <- is_int64_true. destruct (is_int64 v); split; congruence.
Qed.

Section CollectionFacts.
Context {A : Type}.
Implicit Types (f h : A -> bool) (g : A -> A) (c : list A).

Lemma update_one_none f g c :
  find_one f c = None -> update_one f g c = (0, c).
Proof.
  unfold find_one. induction c as [|d c IH]; simpl; [reflexivity|].
  destruct (f d); [discriminate|].
  intros H. rewrite (IH H). reflexivity.
Qed.

Lemma update_one_some f g c d :
  find_one f c = Some d -> fst (update_one f g c) = 1.
Proof.
  unfold find_one. induction c as [|e c IH]; simpl; [discriminate|].
  destruct (f e); [reflexivity|].
  intros H. specialize (IH H).
  destruct (update_one f g c). exact IH.
Qed.

(** The document that [update_one] rewrote is the one [find_one] meets,
    as long as the rewriting keeps it under the filter. *)
Lemma find_one_update_one f g c :
  (forall d, f (g d) = f d) ->
  find_one f (snd (update_one f g c)) = option_map g (find_one f c).
Proof.
  intros Hfg. unfold find_one.
  induction c as [|e c IH]; simpl; [reflexivity|].
  destruct (f e) eqn:He; simpl.
  - rewrite Hfg, He. reflexivity.
  - destruct (update_one f g c) as [n c']. simpl in *.
    rewrite He. exact IH.
Qed.

(** A filter that never accepts what [f] accepts, and that [g] cannot
    change, sees the same first document before and after. *)
Lemma find_one_update_one_other f h g c :
  (forall d, h (g d) = h d) ->
  (forall d, f d = true -> h d = false) ->
  find_one h (snd (update_one f g c)) = find_one h c.
Proof.
  intros Hg Hfh. unfold find_one.
  induction c as [|e c IH]; simpl; [reflexivity|].
  destruct (f e) eqn:He; simpl.
  - rewrite Hg, (Hfh e He). reflexivity.
  - destruct (update_one f g c) as [n c']. simpl in *.
    rewrite IH. reflexivity.
Qed.

Lemma find_one_insert_one_none f c d :
  find_one f c = None ->
  find_one f (insert_one d c) = (if f d then Some d else None).
Proof.
  unfold find_one, insert_one.
  induction c as [|e c IH]; simpl; [reflexivity|].
  destruct (f e); [discriminate | exact IH].
Qed.

Lemma find_one_In f c :
  (exists d, In d c /\ f d = true) <-> find_one f c <> None.
Proof.
  unfold find_one. split.
  - intros (d & Hin & Hd) Hnone.
    pose proof (find_none f c Hnone d Hin). congruence.
  - destruct (find f c) as [d|] eqn:Hf; [|congruence].
    intros _. exists d. apply find_some in Hf. exact Hf.
Qed.

(** *** Sorting and cutting *)

Variable key : A -> Z.

Lemma insert_desc_perm d c : Permutation (d :: c) (insert_desc key d c).
Proof.
  induction c as [|e c IH]; simpl; [reflexivity|].
  destruct (key e <=? key d); [reflexivity|].
  rewrite perm_swap. constructor. exact IH.
Qed.

Lemma sort_desc_perm c : Permutation c (sort_desc key c).
Proof.
  induction c as [|d c IH]; simpl; [constructor|].
  rewrite <- insert_desc_perm. constructor. exact IH.
Qed.

Lemma insert_desc_sorted d c :
  Sorted Z.ge (map key c) -> Sorted Z.ge (map key (insert_desc key d c)).
Proof.
  induction c as [|e c IH]; simpl; intros Hs.
  - repeat constructor.
  - destruct (key e <=? key d) eqn:Hle; simpl.
    + constructor; [exact Hs|]. constructor. apply Z.leb_le in Hle. lia.
    + apply Z.leb_gt in Hle.
      inversion Hs as [|? ? Hs' Hhd]; subst.
      constructor; [apply IH; exact Hs'|].
      destruct c as [|x c]; simpl.
      * constructor. lia.
      * destruct (key x <=? key d); simpl; constructor.
        -- lia.
        -- inversion Hhd; subst. assumption.
Qed.

Lemma sort_desc_sorted c : Sorted Z.ge (map key (sort_desc key c)).
Proof.
  induction c as [|d c IH]; simpl; [constructor|].
  apply insert_desc_sorted, IH.
Qed.

(** A document whose key is above every other comes first. *)
Lemma sort_desc_newest c d :
  (forall e, In e c -> key e < key d) ->
  sort_desc key (c ++ [d]) = d :: sort_desc key c.
Proof.
  induction c as [|e c IH]; simpl; intros Hlt; [reflexivity|].
  rewrite IH by (intros x Hx; apply Hlt; right; exact Hx).
  simpl.
  assert (He : key e < key d) by (apply Hlt; left; reflexivity).
  destruct (key d <=? key e) eqn:Hde; [apply Z.leb_le in Hde; lia|].
  reflexivity.
Qed.

Lemma firstn_sorted (l : list Z) n :
  Sorted Z.ge l -> Sorted Z.ge (firstn n l).
Proof.
  revert n. induction l as [|x l IH]; intros [|n] Hs; simpl;
    try constructor.
  - apply IH. inversion Hs; assumption.
  - inversion Hs as [|? ? _ Hhd]; subst.
    destruct l as [|y l]; destruct n; simpl; constructor.
    inversion Hhd; assumption.
Qed.

Lemma to_list_in_range n c :
  0 <= n < 2 ^ 63 -> to_list n c = Return (firstn (Z.to_nat n) c).
Proof.
  intros Hn. unfold to_list.
  destruct (n <? 0) eqn:Hlt; [apply Z.ltb_lt in Hlt; lia|].
  replace (is_int64 n) with true; [reflexivity|].
  symmetry. apply is_int64_true. unfold int64. lia.
Qed.
End CollectionFacts.

(** ** Recording a match *)

(** On a result other than [win] the dictionary has no [wins] entry when the
    rank thresholds read it. *)
Lemma stat_updates_not_win player match_data :
  MatchResultCreate.result match_data <> "win" ->
  stat_updates player match_data = Raise (KeyError "wins").
Proof.
  intros Hr. unfold stat_updates.
  apply String.eqb_neq in Hr. rewrite Hr. simpl.
  destruct (level_up _ _). reflexivity.
Qed.

(** On [win] the dictionary reaches the write; what [$set] then makes of the
    player is spelled out field by field. *)
Lemma stat_updates_win player match_data :
  MatchResultCreate.result match_data = "win" ->
  exists updates,
    stat_updates player match_data = Return updates
    /\ let player' := set_player updates player in
       Player.id player' = Player.id player
       /\ Player.wins player' = Player.wins player + 1
       /\ Player.losses player' = Player.losses player
       /\ Player.xp player'
          = Player.xp player + MatchResultCreate.xp_earned match_data
       /\ Player.level player'
          = snd (level_up (Player.xp player
                           + MatchResultCreate.xp_earned match_data)
                          (Player.level player))
       /\ Player.coins player'
          = Player.coins player + MatchResultCreate.coins_earned match_data
       /\ Player.goals player'
          = Player.goals player + MatchResultCreate.player_goals match_data
       /\ Player.rank player'
          = (if 5 <=? Player.wins player + 1
             then rank_for_wins (Player.wins player + 1)
             else Player.rank player).
Proof.
  intros Hr. unfold stat_updates, rank_for_wins.
  apply String.eqb_eq in Hr. rewrite Hr. simpl.
  destruct (level_up _ _) as [x l]. simpl.
  destruct (50 <=? Player.wins player + 1) eqn:H50;
    [|destruct (30 <=? Player.wins player + 1) eqn:H30;
      [|destruct (15 <=? Player.wins player + 1) eqn:H15;
        [|destruct (5 <=? Player.wins player + 1) eqn:H5]]];
    eexists; (split; [reflexivity|]); simpl;
    repeat match goal with
           | |- context [5 <=? ?w] =>
               replace (5 <=? w) with true by (symmetry; apply Z.leb_le;
                 repeat match goal with
                        | H : (_ <=? _) = true |- _ => apply Z.leb_le in H
                        end; lia)
           end;
    repeat split; reflexivity.
Qed.

Lemma set_player_id d p i : by_id i (set_player d p) = by_id i p.
Proof. reflexivity. Qed.

Lemma match_encodes_fits new_id now match_data :
  match_encodes (new_match new_id now match_data) = true
  <-> match_fits match_data.
Proof.
  unfold match_encodes, match_fits. simpl.
  rewrite !andb_true_iff, !is_int64_true. tauto.
Qed.

Lemma entry_encodes_fits entry : entry_encodes entry = true <-> entry_fits entry.
Proof.
  destruct entry as [v|]; simpl; [apply is_int64_true | tauto].
Qed.

Lemma set_encodes_fits d : set_encodes d = true <-> update_fits d.
Proof.
  unfold set_encodes, update_fits.
  rewrite !andb_true_iff, !entry_encodes_fits. tauto.
Qed.

Lemma set_encodes_not_fits d : set_encodes d = false <-> ~ update_fits d.
Proof.
  rewrite <- set_encodes_fits. destruct (set_encodes d); split; congruence.
Qed.

(** The entries of the dictionary that a won match hands to [$set]. *)
Lemma stat_updates_win_entries player match_data :
  MatchResultCreate.result match_data = "win" ->
  exists updates,
    stat_updates player match_data = Return updates
    /\ PlayerUpdate.level updates
       = Some (snd (level_up (Player.xp player
                              + MatchResultCreate.xp_earned match_data)
                             (Player.level player)))
    /\ PlayerUpdate.xp updates
       = Some (Player.xp player + MatchResultCreate.xp_earned match_data)
    /\ PlayerUpdate.coins updates
       = Some (Player.coins player
               + MatchResultCreate.coins_earned match_data)
    /\ PlayerUpdate.diamonds updates = None
    /\ PlayerUpdate.wins updates = Some (Player.wins player + 1)
    /\ PlayerUpdate.losses updates = None
    /\ PlayerUpdate.goals updates
       = Some (Player.goals player
               + MatchResultCreate.player_goals match_data).
Proof.
  intros Hr. unfold stat_updates.
  apply String.eqb_eq in Hr. rewrite Hr. simpl.
  destruct (level_up _ _) as [x l]. simpl.
  repeat match goal with
         | |- context [if ?b then _ else _] => destruct b
         end;
    eexists; (split; [reflexivity|]); repeat split.
Qed.

Lemma stat_updates_fits player match_data updates :
  stat_updates player match_data = Return updates ->
  update_fits updates <-> totals_fit player match_data.
Proof.
  intros Hu.
  destruct (string_dec (MatchResultCreate.result match_data) "win")
    as [Hr | Hr].
  - destruct (stat_updates_win_entries player match_data Hr)
      as (updates' & Hu' & Hl & Hx & Hc & Hd & Hw & Hls & Hg).
    rewrite Hu in Hu'. injection Hu' as <-.
    unfold update_fits, totals_fit.
    rewrite Hl, Hx, Hc, Hd, Hw, Hls, Hg. simpl. tauto.
  - rewrite (stat_updates_not_win _ _ Hr) in Hu. discriminate.
Qed.

Ltac split_conj := repeat match goal with |- _ /\ _ => split end.

(** Closed instances of the fitting conditions, by evaluation. *)
Ltac fits :=
  unfold match_fits, totals_fit, update_fits, entry_fits, int64;
  repeat split; vm_compute; first [reflexivity | discriminate | exact I].

(** The five ways [create_match_result] can go. *)
Lemma create_match_result_cases new_id now match_data db :
  let match_ := new_match new_id now match_data in
  let db1 :=
    mkDB (players db) (customizations db) (insert_one match_ (matches db)) in
  (~ match_fits match_data
   /\ create_match_result new_id now match_data db = (Raise overflow, db))
  \/ (match_fits match_data
      /\ find_one (by_id (MatchResultCreate.player_id match_data))
                  (players db) = None
      /\ create_match_result new_id now match_data db = (Return match_, db1))
  \/ (exists player,
        match_fits match_data
        /\ find_one (by_id (MatchResultCreate.player_id match_data))
                    (players db) = Some player
        /\ MatchResultCreate.result match_data <> "win"
        /\ create_match_result new_id now match_data db
           = (Raise (KeyError "wins"), db1))
  \/ (exists player updates,
        match_fits match_data
        /\ find_one (by_id (MatchResultCreate.player_id match_data))
                    (players db) = Some player
        /\ MatchResultCreate.result match_data = "win"
        /\ stat_updates player match_data = Return updates
        /\ ~ totals_fit player match_data
        /\ create_match_result new_id now match_data db
           = (Raise overflow, db1))
  \/ (exists player updates,
        match_fits match_data
        /\ find_one (by_id (MatchResultCreate.player_id match_data))
                    (players db) = Some player
        /\ MatchResultCreate.result match_data = "win"
        /\ stat_updates player match_data = Return updates
        /\ totals_fit player match_data
        /\ create_match_result new_id now match_data db
           = (Return match_,
              mkDB (snd (update_one
                           (by_id (MatchResultCreate.player_id match_data))
                           (set_player updates) (players db)))
                   (customizations db) (insert_one match_ (matches db)))).
Proof.
  intros match_ db1. unfold create_match_result. fold match_.
  destruct (match_encodes match_) eqn:Hm; cbn [negb].
  - apply match_encodes_fits in Hm. right.
    cbn [players customizations matches].
    destruct (find_one _ (players db)) as [player|] eqn:Hp.
    + right.
      destruct (string_dec (MatchResultCreate.result match_data) "win")
        as [Hr | Hr].
      * right.
        destruct (stat_updates_win_entries player match_data Hr)
          as (updates & Hu & _).
        rewrite Hu.
        pose proof (stat_updates_fits _ _ _ Hu) as Hfits.
        destruct (set_encodes updates) eqn:Hs; cbn [negb].
        -- right. exists player, updates.
           apply set_encodes_fits, Hfits in Hs.
           split_conj; try assumption; try reflexivity.
           destruct (update_one _ _ _). reflexivity.
        -- left. exists player, updates.
           apply set_encodes_not_fits in Hs.
           split_conj; try assumption; try reflexivity.
           intros Ht. apply Hs, Hfits, Ht.
      * left. exists player.
        rewrite (stat_updates_not_win _ _ Hr).
        split_conj; try assumption; reflexivity.
    + left. split_conj; try assumption; reflexivity.
  - left. split; [|reflexivity].
    intros Hf. apply match_encodes_fits with (new_id := new_id) (now := now)
      in Hf.
    fold match_ in Hf. congruence.
Qed.

Lemma create_match_result_not_win new_id now match_data db player :
  match_fits match_data ->
  find_one (by_id (MatchResultCreate.player_id match_data)) (players db)
  = Some player ->
  MatchResultCreate.result match_data <> "win" ->
  create_match_result new_id now match_data db
  = (Raise (KeyError "wins"),
     mkDB (players db) (customizations db)
          (insert_one (new_match new_id now match_data) (matches db))).
Proof.
  intros Hm Hp Hr.
  destruct (create_match_result_cases new_id now match_data db)
    as [(Hno & _)
       | [(_ & Hp' & _)
         | [(player' & _ & _ & _ & Hc)
           | [(player' & updates & _ & _ & Hr' & _)
             | (player' & updates & _ & _ & Hr' & _)]]]];
    try contradiction; try congruence.
Qed.

Lemma create_match_result_win new_id now match_data db player :
  match_fits match_data ->
  totals_fit player match_data ->
  find_one (by_id (MatchResultCreate.player_id match_data)) (players db)
  = Some player ->
  MatchResultCreate.result match_data = "win" ->
  exists updates ps,
    stat_updates player match_data = Return updates
    /\ create_match_result new_id now match_data db
       = (Return (new_match new_id now match_data),
          mkDB ps (customizations db)
               (insert_one (new_match new_id now match_data) (matches db)))
    /\ find_one (by_id (MatchResultCreate.player_id match_data)) ps
       = Some (set_player updates player).
Proof.
  intros Hm Ht Hp Hr.
  destruct (create_match_result_cases new_id now match_data db)
    as [(Hno & _)
       | [(_ & Hp' & _)
         | [(player' & _ & _ & Hr' & _)
           | [(player' & updates & _ & Hp' & _ & _ & Hno & _)
             | (player' & updates & _ & Hp' & _ & Hu & _ & Hc)]]]];
    try contradiction; try congruence.
  rewrite Hp in Hp'. injection Hp' as Heq. subst player'.
  exists updates,
    (snd (update_one (by_id (MatchResultCreate.player_id match_data))
                     (set_player updates) (players db))).
  split; [exact Hu|]. split; [exact Hc|].
  rewrite find_one_update_one by (intros d; apply set_player_id).
  rewrite Hp. reflexivity.
Qed.

(** C1 (the code departs from the claim on a lost match).  Alice exists and
    a match with result [loss] is recorded for her: the match is inserted,
    then reading [updates['wins']] raises [KeyError], so the request fails
    and her document is never written; her losses stay at 0. *)
Theorem C1_loss_raises_KeyError :
  create_match_result "m1" 1000 alice_loses db_alice
  = (Raise (KeyError "wins"),
     mkDB [alice] [] [new_match "m1" 1000 alice_loses]).
Proof.
  apply (create_match_result_not_win "m1" 1000 alice_loses db_alice alice).
  - fits.
  - reflexivity.
  - discriminate.
Qed.

(** C2 (the code departs from the claim on the stored xp).  The loop leaves
    its locals at (50, 3) for 350 xp at level 1 and at (30, 2) for 130 xp at
    level 1, but only the level is stored: the xp written to the player is
    the raw sum, 350 and 130, and with 350 xp at level 3 the player at rest
    is outside [0 <= xp < level * 100]. *)
Theorem C2_stored_xp_is_raw_sum :
  level_up 350 1 = (50, 3)
  /\ create_match_result "m1" 1000 alice_wins_350 db_alice
     = (Return (new_match "m1" 1000 alice_wins_350),
        mkDB [alice_after_350] [] [new_match "m1" 1000 alice_wins_350])
  /\ Player.xp alice_after_350 = 350
  /\ Player.level alice_after_350 = 3
  /\ ~ xp_normalised alice_after_350
  /\ level_up 130 1 = (30, 2)
  /\ create_match_result "m2" 1000 bob_wins_50 db_bob
     = (Return (new_match "m2" 1000 bob_wins_50),
        mkDB [bob_after_50] [] [new_match "m2" 1000 bob_wins_50])
  /\ Player.xp bob_after_50 = 130
  /\ Player.level bob_after_50 = 2.
Proof.
  repeat split; try reflexivity.
  unfold xp_normalised. simpl. lia.
Qed.

(** C3, as stated, fails: Carol has 3 wins and a stored rank of Gold; after
    a won match she has 4 wins and is still Gold, where the table of the
    specification gives Bronze. *)
Lemma C3_rank_not_recomputed_below_5 :
  create_match_result "m1" 1000 carol_wins db_carol
  = (Return (new_match "m1" 1000 carol_wins),
     mkDB [carol_after] [] [new_match "m1" 1000 carol_wins])
  /\ Player.wins carol_after = 4
  /\ Player.rank carol_after = "Gold"
  /\ rank_for_wins 4 = "Bronze"
  /\ Player.rank carol_after <> rank_for_wins (Player.wins carol_after).
Proof.
  repeat split; try reflexivity.
  simpl. discriminate.
Qed.

(** C3, amended.  After a won match of an existing player, when the
    integers of the match and the player's new totals fit the store, the
    stored wins are one more, and the stored rank is Diamond from 50 wins,
    Platinum from 30, Gold from 15, Silver from 5, whatever it was before;
    below 5 wins the rank is not written and stays what it was. *)
Theorem C3_rank_after_win new_id now match_data db player :
  find_one (by_id (MatchResultCreate.player_id match_data)) (players db)
  = Some player ->
  MatchResultCreate.result match_data = "win" ->
  match_fits match_data ->
  totals_fit player match_data ->
  exists player',
    fst (create_match_result new_id now match_data db)
    = Return (new_match new_id now match_data)
    /\ find_one (by_id (MatchResultCreate.player_id match_data))
                (players (snd (create_match_result new_id now match_data db)))
       = Some player'
    /\ Player.wins player' = Player.wins player + 1
    /\ Player.rank player'
       = (if 50 <=? Player.wins player' then "Diamond"
          else if 30 <=? Player.wins player' then "Platinum"
          else if 15 <=? Player.wins player' then "Gold"
          else if 5 <=? Player.wins player' then "Silver"
          else Player.rank player).
Proof.
  intros Hp Hr Hm Ht.
  destruct (create_match_result_win new_id now match_data db player
                                    Hm Ht Hp Hr)
    as (updates & ps & Hu & Hc & Hf).
  destruct (stat_updates_win player match_data Hr)
    as (updates' & Hu' & _ & Hw & _ & _ & _ & _ & _ & Hrank).
  rewrite Hu in Hu'. injection Hu' as <-.
  exists (set_player updates player). rewrite Hc. cbn [fst snd players].
  cbv zeta in Hw, Hrank.
  repeat split; try assumption.
  rewrite Hrank, Hw. unfold rank_for_wins.
  repeat match goal with
         | |- context [?a <=? ?b] => destruct (Z.leb_spec a b)
         end; try reflexivity; lia.
Qed.

Lemma C3_rank_after_win_witness :
  exists player',
    fst (create_match_result "m1" 1000 carol_wins db_carol)
    = Return (new_match "m1" 1000 carol_wins)
    /\ find_one (by_id (MatchResultCreate.player_id carol_wins))
                (players (snd (create_match_result "m1" 1000 carol_wins
                                                   db_carol)))
       = Some player'
    /\ Player.wins player' = Player.wins carol + 1
    /\ Player.rank player'
       = (if 50 <=? Player.wins player' then "Diamond"
          else if 30 <=? Player.wins player' then "Platinum"
          else if 15 <=? Player.wins player' then "Gold"
          else if 5 <=? Player.wins player' then "Silver"
          else Player.rank carol).
Proof.
  apply (C3_rank_after_win "m1" 1000 carol_wins db_carol carol).
  - reflexivity.
  - reflexivity.
  - fits.
  - fits.
Defined.

Lemma mkDB_eta db : mkDB (players db) (customizations db) (matches db) = db.
Proof. destruct db; reflexivity. Qed.

(** C4, as stated, fails: a match for the id "ghost", which no player has,
    with [xp_earned] at 2^63 is refused by the driver when it is inserted;
    the request fails with [OverflowError], nothing is stored and the match
    history of "ghost" stays empty. *)
Lemma C4_oversized_match_not_persisted :
  find_one (by_id (MatchResultCreate.player_id ghost_match_huge))
           (players db_alice) = None
  /\ create_match_result "m9" 1000 ghost_match_huge db_alice
     = (Raise (OverflowError "MongoDB can only handle up to 8-byte ints"),
        db_alice)
  /\ get_player_matches
       "ghost" None
       (snd (create_match_result "m9" 1000 ghost_match_huge db_alice))
     = Return [].
Proof. repeat split. Qed.

(** C4, amended.  A match whose integers fit the store, submitted for an id
    that no player has, is recorded and returned, field for field as
    submitted, and nothing is raised; players and customizations are
    untouched.  The record is in the player's match history whenever the
    limit covers the history, 10 being the limit when none is given, and it
    heads the history for any limit of at least 1 when it is the most
    recent match. *)
Theorem C4_match_for_unknown_player new_id now match_data db :
  find_one (by_id (MatchResultCreate.player_id match_data)) (players db)
  = None ->
  match_fits match_data ->
  let match_ := new_match new_id now match_data in
  let db' := mkDB (players db) (customizations db) (matches db ++ [match_]) in
  create_match_result new_id now match_data db = (Return match_, db')
  /\ (MatchResult.player_id match_ = MatchResultCreate.player_id match_data
      /\ MatchResult.match_type match_
         = MatchResultCreate.match_type match_data
      /\ MatchResult.result match_ = MatchResultCreate.result match_data
      /\ MatchResult.player_goals match_
         = MatchResultCreate.player_goals match_data
      /\ MatchResult.opponent_goals match_
         = MatchResultCreate.opponent_goals match_data
      /\ MatchResult.duration match_ = MatchResultCreate.duration match_data
      /\ MatchResult.xp_earned match_
         = MatchResultCreate.xp_earned match_data
      /\ MatchResult.coins_earned match_
         = MatchResultCreate.coins_earned match_data)
  /\ (forall n,
        Z.of_nat (List.length (filter (of_player (MatchResult.player_id match_))
                                 (matches db')))
        <= n < 2 ^ 63 ->
        exists history,
          get_player_matches (MatchResult.player_id match_) (Some n) db'
          = Return history
          /\ In match_ history)
  /\ get_player_matches (MatchResult.player_id match_) None db'
     = get_player_matches (MatchResult.player_id match_) (Some 10) db'
  /\ ((forall m, In m (matches db) -> MatchResult.timestamp m < now) ->
      forall n,
        1 <= n < 2 ^ 63 ->
        exists older,
          get_player_matches (MatchResult.player_id match_) (Some n) db'
          = Return (match_ :: older)).
Proof.
  intros Hnone Hfits match_ db'.
  assert (Hmine : of_player (MatchResult.player_id match_) match_ = true)
    by apply String.eqb_refl.
  split; [|split; [|split; [|split]]].
  - destruct (create_match_result_cases new_id now match_data db)
      as [(Hno & _)
         | [(_ & _ & Hc)
           | [(player & _ & Hp & _)
             | [(player & updates & _ & Hp & _)
               | (player & updates & _ & Hp & _)]]]];
      try contradiction; try congruence.
    exact Hc.
  - repeat split.
  - intros n Hlen. unfold get_player_matches. cbn [limit_or_default].
    rewrite to_list_in_range by lia.
    eexists. split; [reflexivity|].
    rewrite firstn_all2.
    + apply (Permutation_in _ (sort_desc_perm _ _)).
      apply filter_In. split; [|exact Hmine].
      subst db'. simpl. apply in_or_app. right. left. reflexivity.
    + rewrite <- (Permutation_length (sort_desc_perm MatchResult.timestamp _)).
      lia.
  - reflexivity.
  - intros Hrecent n Hn. unfold get_player_matches. cbn [limit_or_default].
    rewrite to_list_in_range by lia.
    subst db'. cbn [matches]. rewrite filter_app. cbn [filter].
    rewrite Hmine.
    rewrite sort_desc_newest.
    + destruct (Z.to_nat n) as [|k] eqn:Hk; [lia|].
      eexists. reflexivity.
    + intros m Hm. apply filter_In in Hm. apply Hrecent, Hm.
Qed.

Lemma C4_match_for_unknown_player_witness :
  let match_ := new_match "m9" 1000 ghost_match in
  let db' := mkDB (players db_alice) (customizations db_alice)
                  (matches db_alice ++ [match_]) in
  create_match_result "m9" 1000 ghost_match db_alice = (Return match_, db')
  /\ (MatchResult.player_id match_ = MatchResultCreate.player_id ghost_match
      /\ MatchResult.match_type match_
         = MatchResultCreate.match_type ghost_match
      /\ MatchResult.result match_ = MatchResultCreate.result ghost_match
      /\ MatchResult.player_goals match_
         = MatchResultCreate.player_goals ghost_match
      /\ MatchResult.opponent_goals match_
         = MatchResultCreate.opponent_goals ghost_match
      /\ MatchResult.duration match_ = MatchResultCreate.duration ghost_match
      /\ MatchResult.xp_earned match_
         = MatchResultCreate.xp_earned ghost_match
      /\ MatchResult.coins_earned match_
         = MatchResultCreate.coins_earned ghost_match)
  /\ (forall n,
        Z.of_nat (List.length (filter (of_player (MatchResult.player_id match_))
                                 (matches db')))
        <= n < 2 ^ 63 ->
        exists history,
          get_player_matches (MatchResult.player_id match_) (Some n) db'
          = Return history
          /\ In match_ history)
  /\ get_player_matches (MatchResult.player_id match_) None db'
     = get_player_matches (MatchResult.player_id match_) (Some 10) db'
  /\ ((forall m, In m (matches db_alice) -> MatchResult.timestamp m < 1000) ->
      forall n,
        1 <= n < 2 ^ 63 ->
        exists older,
          get_player_matches (MatchResult.player_id match_) (Some n) db'
          = Return (match_ :: older)).
Proof.
  apply (C4_match_for_unknown_player "m9" 1000 ghost_match db_alice).
  - reflexivity.
  - fits.
Defined.

(** ** Players *)

Lemma by_email_true e p : by_email e p = true <-> Player.email p = e.
Proof. unfold by_email. apply String.eqb_eq. Qed.

Lemma by_id_other i j p : i <> j -> by_id j p = true -> by_id i p = false.
Proof.
  unfold by_id. intros Hij Hj. apply String.eqb_eq in Hj.
  apply String.eqb_neq. congruence.
Qed.

(** A request has no field exactly when it is the request of nine
    [None]. *)
Lemma is_empty_true updates :
  PlayerUpdate.is_empty updates = true
  <-> updates = PlayerUpdate.mk None None None None None None None None None.
Proof.
  destruct updates as [a l x c dm r w ls g].
  destruct a, l, x, c, dm, r, w, ls, g; simpl; split;
    first [reflexivity | discriminate].
Qed.

Lemma is_empty_false updates :
  PlayerUpdate.is_empty updates = false
  <-> updates <> PlayerUpdate.mk None None None None None None None None None.
Proof.
  rewrite <- is_empty_true.
  destruct (PlayerUpdate.is_empty updates); split; congruence.
Qed.

(** The four ways [update_player] can go. *)
Lemma update_player_cases player_id updates db :
  (updates = PlayerUpdate.mk None None None None None None None None None
   /\ update_player player_id updates db
      = (Raise (HTTPException 400 "No valid fields to update"), db))
  \/ (updates
      <> PlayerUpdate.mk None None None None None None None None None
      /\ ~ update_fits updates
      /\ update_player player_id updates db = (Raise overflow, db))
  \/ (updates
      <> PlayerUpdate.mk None None None None None None None None None
      /\ update_fits updates
      /\ find_one (by_id player_id) (players db) = None
      /\ update_player player_id updates db
         = (Raise (HTTPException 404 "Player not found"), db))
  \/ (exists player,
        updates
        <> PlayerUpdate.mk None None None None None None None None None
        /\ update_fits updates
        /\ find_one (by_id player_id) (players db) = Some player
        /\ update_player player_id updates db
           = (Return (set_player updates player),
              mkDB (snd (update_one (by_id player_id) (set_player updates)
                                    (players db)))
                   (customizations db) (matches db))).
Proof.
  unfold update_player.
  destruct (PlayerUpdate.is_empty updates) eqn:He.
  - left. split; [apply is_empty_true, He | reflexivity].
  - right. apply is_empty_false in He.
    destruct (set_encodes updates) eqn:Hs; cbn [negb].
    + right. apply set_encodes_fits in Hs.
      destruct (find_one (by_id player_id) (players db)) as [player|] eqn:Hp.
      * right. exists player. split_conj; try assumption; try reflexivity.
        pose proof (update_one_some (by_id player_id) (set_player updates)
                                    (players db) player Hp) as Hone.
        pose proof (find_one_update_one (by_id player_id)
                      (set_player updates) (players db)
                      (fun d => set_player_id updates d player_id))
          as Hfound.
        destruct (update_one _ _ _) as [n ps]. simpl in *. subst n. simpl.
        rewrite Hfound, Hp. reflexivity.
      * left. split_conj; try assumption; try reflexivity.
        rewrite (update_one_none _ _ _ Hp). simpl. rewrite mkDB_eta.
        reflexivity.
    + left. apply set_encodes_not_fits in Hs.
      split_conj; try assumption; reflexivity.
Qed.

(** What [update_player] does once the request has a field, its integers
    fit and the id has a player. *)
Lemma update_player_found player_id updates db player :
  updates <> PlayerUpdate.mk None None None None None None None None None ->
  update_fits updates ->
  find_one (by_id player_id) (players db) = Some player ->
  exists ps,
    update_player player_id updates db
    = (Return (set_player updates player),
       mkDB ps (customizations db) (matches db))
    /\ find_one (by_id player_id) ps = Some (set_player updates player)
    /\ (forall i, i <> player_id ->
                  find_one (by_id i) ps = find_one (by_id i) (players db)).
Proof.
  intros Hne Hfits Hp.
  destruct (update_player_cases player_id updates db)
    as [(He & _)
       | [(_ & Hno & _)
         | [(_ & _ & Hp' & _) | (player' & _ & _ & Hp' & Hu)]]];
    try contradiction; try congruence.
  rewrite Hp in Hp'. injection Hp' as Heq. subst player'.
  exists (snd (update_one (by_id player_id) (set_player updates) (players db))).
  split; [exact Hu|]. split.
  - rewrite find_one_update_one by (intros d; apply set_player_id).
    rewrite Hp. reflexivity.
  - intros i Hi. apply find_one_update_one_other.
    + intros d. apply set_player_id.
    + intros d. apply by_id_other. exact Hi.
Qed.

(** C5, as stated, fails: a request that sets Alice's coins to 2^63 is
    refused by the driver when [update_one] encodes it; the request fails
    with [OverflowError], the field is not applied and no record is
    returned.  The same request for an id that no player has fails the same
    way, not with the 404. *)
Lemma C5_oversized_update_refused :
  find_one (by_id "p1") (players db_alice) = Some alice
  /\ PlayerUpdate.coins huge_patch = Some 9223372036854775808
  /\ update_player "p1" huge_patch db_alice
     = (Raise (OverflowError "MongoDB can only handle up to 8-byte ints"),
        db_alice)
  /\ find_one (by_id "ghost") (players db_alice) = None
  /\ update_player "ghost" huge_patch db_alice
     = (Raise (OverflowError "MongoDB can only handle up to 8-byte ints"),
        db_alice).
Proof. repeat split. Qed.

(** C5, amended.  [update_player] with no field that is not [None] fails
    with the 400 "No valid fields to update" (InvalidInput) and leaves the
    database as it was, whatever the id.  With at least one field, every
    integer supplied fitting the store, and an id that no player has, it
    fails with the 404 "Player not found" (NotFound), again without a
    write.  With at least one field, every integer supplied fitting the
    store, and a player under the id, it rewrites the player so that each
    supplied field holds the supplied value and every other field its old
    value, returns that record, which is the one then stored under the id,
    and touches no other id and no other collection. *)
Theorem C5_update_player player_id updates db :
  update_player
    player_id
    (PlayerUpdate.mk None None None None None None None None None) db
  = (Raise (HTTPException 400 "No valid fields to update"), db)
  /\ (updates
      <> PlayerUpdate.mk None None None None None None None None None ->
      update_fits updates ->
      find_one (by_id player_id) (players db) = None ->
      update_player player_id updates db
      = (Raise (HTTPException 404 "Player not found"), db))
  /\ (updates
      <> PlayerUpdate.mk None None None None None None None None None ->
      update_fits updates ->
      forall player,
        find_one (by_id player_id) (players db) = Some player ->
        exists updated_player ps,
          update_player player_id updates db
          = (Return updated_player,
             mkDB ps (customizations db) (matches db))
          /\ find_one (by_id player_id) ps = Some updated_player
          /\ (forall i, i <> player_id ->
                 find_one (by_id i) ps = find_one (by_id i) (players db))
          /\ Player.id updated_player = Player.id player
          /\ Player.username updated_player = Player.username player
          /\ Player.email updated_player = Player.email player
          /\ Player.created_at updated_player = Player.created_at player
          /\ applied (PlayerUpdate.avatar updates)
                     (Player.avatar player) (Player.avatar updated_player)
          /\ applied (PlayerUpdate.level updates)
                     (Player.level player) (Player.level updated_player)
          /\ applied (PlayerUpdate.xp updates)
                     (Player.xp player) (Player.xp updated_player)
          /\ applied (PlayerUpdate.coins updates)
                     (Player.coins player) (Player.coins updated_player)
          /\ applied (PlayerUpdate.diamonds updates)
                     (Player.diamonds player) (Player.diamonds updated_player)
          /\ applied (PlayerUpdate.rank updates)
                     (Player.rank player) (Player.rank updated_player)
          /\ applied (PlayerUpdate.wins updates)
                     (Player.wins player) (Player.wins updated_player)
          /\ applied (PlayerUpdate.losses updates)
                     (Player.losses player) (Player.losses updated_player)
          /\ applied (PlayerUpdate.goals updates)
                     (Player.goals player) (Player.goals updated_player)).
Proof.
  split; [|split].
  - reflexivity.
  - intros Hne Hfits Hp.
    destruct (update_player_cases player_id updates db)
      as [(He & _)
         | [(_ & Hno & _)
           | [(_ & _ & _ & Hu) | (player' & _ & _ & Hp' & _)]]];
      try contradiction; try congruence.
  - intros Hne Hfits player Hp.
    destruct (update_player_found player_id updates db player Hne Hfits Hp)
      as (ps & Hu & Hf & Hframe).
    exists (set_player updates player), ps.
    repeat split; try assumption;
      unfold applied; simpl;
      match goal with |- context [or_old ?e _] => destruct e end;
      reflexivity.
Qed.

Lemma C5_update_player_witness :
  update_player "ghost" coins_patch db_alice
  = (Raise (HTTPException 404 "Player not found"), db_alice)
  /\ exists updated_player ps,
       update_player "p1" coins_patch db_alice
       = (Return updated_player,
          mkDB ps (customizations db_alice) (matches db_alice))
       /\ find_one (by_id "p1") ps = Some updated_player
       /\ Player.coins updated_player = 1500.
Proof.
  split.
  - apply (proj1 (proj2 (C5_update_player "ghost" coins_patch db_alice))).
    + discriminate.
    + fits.
    + reflexivity.
  - destruct (proj2 (proj2 (C5_update_player "p1" coins_patch db_alice)))
      with (player := alice)
      as (updated_player & ps & Hu & Hf & _ & _ & _ & _ & _ & _ & _ & _
          & Hcoins & _).
    + discriminate.
    + fits.
    + reflexivity.
    + exists updated_player, ps. repeat split; assumption.
Defined.

(** C6.  [create_player] fails, with the 400 "Player with this email
    already exists" (Conflict), exactly when some stored player has the
    given email, and then writes nothing; otherwise it returns and appends
    to the players a record with the given username and email, level 1,
    xp 0, coins 1000, diamonds 50, rank Bronze and wins, losses and goals
    at 0. *)
Theorem C6_create_player new_id now player_data db :
  ((exists p, In p (players db)
              /\ Player.email p = PlayerCreate.email player_data)
   <-> fst (create_player new_id now player_data db)
       = Raise (HTTPException 400 "Player with this email already exists"))
  /\ (fst (create_player new_id now player_data db)
      = Raise (HTTPException 400 "Player with this email already exists")
      -> snd (create_player new_id now player_data db) = db)
  /\ ((~ exists p, In p (players db)
                   /\ Player.email p = PlayerCreate.email player_data) ->
      exists player,
        create_player new_id now player_data db
        = (Return player,
           mkDB (players db ++ [player]) (customizations db) (matches db))
        /\ Player.id player = new_id
        /\ Player.username player = PlayerCreate.username player_data
        /\ Player.email player = PlayerCreate.email player_data
        /\ Player.level player = 1
        /\ Player.xp player = 0
        /\ Player.coins player = 1000
        /\ Player.diamonds player = 50
        /\ Player.rank player = "Bronze"
        /\ Player.wins player = 0
        /\ Player.losses player = 0
        /\ Player.goals player = 0).
Proof.
  assert (Hex :
    (exists p, In p (players db)
               /\ Player.email p = PlayerCreate.email player_data)
    <-> find_one (by_email (PlayerCreate.email player_data)) (players db)
        <> None).
  { rewrite <- find_one_In. split; intros (p & Hin & He); exists p;
      (split; [exact Hin | apply by_email_true; exact He]). }
  unfold create_player.
  destruct (find_one (by_email (PlayerCreate.email player_data)) (players db))
    as [existing|] eqn:Hfind; simpl.
  - split; [|split].
    + rewrite Hex. split; [reflexivity | discriminate].
    + reflexivity.
    + intros Hno. exfalso. apply Hno, Hex. discriminate.
  - split; [|split].
    + rewrite Hex. split; [congruence | discriminate].
    + discriminate.
    + intros _. eexists. split; [reflexivity|]. repeat split.
Qed.

Lemma C6_create_player_witness :
  fst (create_player "p9" 7 alice_again db_alice)
  = Raise (HTTPException 400 "Player with this email already exists")
  /\ snd (create_player "p9" 7 alice_again db_alice) = db_alice
  /\ exists player,
       create_player "p9" 7 dave_data db_alice
       = (Return player,
          mkDB (players db_alice ++ [player]) (customizations db_alice)
               (matches db_alice))
       /\ Player.level player = 1
       /\ Player.coins player = 1000
       /\ Player.rank player = "Bronze".
Proof.
  assert (Hconflict :
    fst (create_player "p9" 7 alice_again db_alice)
    = Raise (HTTPException 400 "Player with this email already exists")).
  { apply (proj1 (C6_create_player "p9" 7 alice_again db_alice)).
    exists alice. split; [left|]; reflexivity. }
  split; [exact Hconflict|]. split.
  - apply (proj1 (proj2 (C6_create_player "p9" 7 alice_again db_alice))).
    exact Hconflict.
  - destruct (proj2 (proj2 (C6_create_player "p9" 7 dave_data db_alice)))
      as (player & Hc & _ & _ & _ & Hl & _ & Hcoins & _ & Hr & _).
    + intros (p & [<- | []] & He). discriminate He.
    + exists player. repeat split; assumption.
Defined.

(** ** Customizations *)

Lemma filter_find_one_none {A : Type} (f : A -> bool) c :
  find_one f c = None -> filter f c = [].
Proof.
  unfold find_one. induction c as [|d c IH]; simpl; [reflexivity|].
  destruct (f d); [discriminate | exact IH].
Qed.

Lemma by_player_id_default new_id now player_id :
  by_player_id player_id (default_customization new_id now player_id) = true.
Proof. apply String.eqb_refl. Qed.

(** C7.  [get_customization] always returns a record.  For a player with a
    stored customization it is that record and nothing is written.  For a
    player with none it is a new record with car model "default", body
    colour "#3B82F6", decal "none", wheels "default", boost effect "blue"
    and goal explosion "default", appended to the collection, which then
    holds exactly that one record for the player.  Either way a second call
    for the same player, whatever id and time it is offered, returns the
    same record and leaves the database as the first call left it. *)
Theorem C7_get_customization_idempotent
    new_id now new_id' now' player_id db :
  exists custom db1,
    get_customization new_id now player_id db = (Return custom, db1)
    /\ match find_one (by_player_id player_id) (customizations db) with
       | Some existing => custom = existing /\ db1 = db
       | None =>
           custom = CarCustomization.mk new_id player_id
                      "default" "#3B82F6" "none" "default" "blue" "default"
                      now
           /\ db1 = mkDB (players db) (customizations db ++ [custom])
                         (matches db)
           /\ filter (by_player_id player_id) (customizations db1)
              = [custom]
       end
    /\ get_customization new_id' now' player_id db1 = (Return custom, db1).
Proof.
  unfold get_customization at 1.
  destruct (find_one (by_player_id player_id) (customizations db))
    as [existing|] eqn:Hfind.
  - exists existing, db. repeat split.
    unfold get_customization. rewrite Hfind. reflexivity.
  - exists (default_customization new_id now player_id).
    eexists. split; [reflexivity|]. split; [repeat split|].
    + cbn [customizations]. unfold insert_one. rewrite filter_app.
      rewrite (filter_find_one_none _ _ Hfind). cbn [filter app].
      rewrite by_player_id_default. reflexivity.
    + unfold get_customization. cbn [customizations].
      rewrite (find_one_insert_one_none _ _ _ Hfind).
      rewrite by_player_id_default. reflexivity.
Qed.

(** C10.  [get_customization] never looks at the players: for an id that no
    player has it still returns a customization for that id, which is then
    stored, while the players still have nobody under the id; if none was
    stored before, it is the default one, newly appended. *)
Theorem C10_customization_without_player new_id now player_id db :
  find_one (by_id player_id) (players db) = None ->
  exists custom db',
    get_customization new_id now player_id db = (Return custom, db')
    /\ CarCustomization.player_id custom = player_id
    /\ find_one (by_player_id player_id) (customizations db') = Some custom
    /\ players db' = players db
    /\ find_one (by_id player_id) (players db') = None
    /\ (find_one (by_player_id player_id) (customizations db) = None ->
        custom = default_customization new_id now player_id
        /\ customizations db' = (customizations db ++ [custom])%list).
Proof.
  intros Hnobody. unfold get_customization.
  destruct (find_one (by_player_id player_id) (customizations db))
    as [existing|] eqn:Hfind.
  - exists existing, db. repeat split; try assumption; try discriminate.
    apply find_some in Hfind. apply String.eqb_eq, Hfind.
  - eexists. eexists. split; [reflexivity|]. cbn [players customizations].
    repeat split; try assumption.
    rewrite (find_one_insert_one_none _ _ _ Hfind).
    rewrite by_player_id_default. reflexivity.
Qed.

Lemma C10_customization_without_player_witness :
  exists custom db',
    get_customization "c1" 1000 "ghost" db_alice = (Return custom, db')
    /\ CarCustomization.player_id custom = "ghost"
    /\ find_one (by_player_id "ghost") (customizations db') = Some custom
    /\ players db' = players db_alice
    /\ find_one (by_id "ghost") (players db') = None
    /\ (find_one (by_player_id "ghost") (customizations db_alice) = None ->
        custom = default_customization "c1" 1000 "ghost"
        /\ customizations db' = (customizations db_alice ++ [custom])%list).
Proof.
  apply (C10_customization_without_player "c1" 1000 "ghost" db_alice).
  reflexivity.
Defined.

(** ** Leaderboard *)




(** ** Field updates and the xp invariant *)

(** C9, as stated, fails: not any integer is written.  A request that sets
    Alice's coins to 2^63 is refused by the driver with [OverflowError]
    and her coins stay at 1000. *)
Lemma C9_oversized_not_written :
  find_one (by_id "p1") (players db_alice) = Some alice
  /\ PlayerUpdate.coins huge_patch = Some 9223372036854775808
  /\ fst (update_player "p1" huge_patch db_alice)
     = Raise (OverflowError "MongoDB can only handle up to 8-byte ints")
  /\ find_one (by_id "p1")
              (players (snd (update_player "p1" huge_patch db_alice)))
     = Some alice
  /\ Player.coins alice = 1000.
Proof. repeat split. Qed.

(** C9, amended.  [update_player] checks no value beyond what the store can
    hold: for an existing player, every integer supplied for level, xp,
    coins, diamonds, wins, losses or goals, all of them fitting the store,
    is what the stored record then holds.  Alice, at rest with
    [0 <= xp < level * 100], is left by one such request with 500 xp at
    level 2, -7 coins and -1 wins. *)
Theorem C9_update_player_writes_verbatim :
  (forall player_id updates db player,
      updates
      <> PlayerUpdate.mk None None None None None None None None None ->
      update_fits updates ->
      find_one (by_id player_id) (players db) = Some player ->
      exists stored ps,
        update_player player_id updates db
        = (Return stored, mkDB ps (customizations db) (matches db))
        /\ find_one (by_id player_id) ps = Some stored
        /\ (forall v, PlayerUpdate.level updates = Some v ->
                      Player.level stored = v)
        /\ (forall v, PlayerUpdate.xp updates = Some v ->
                      Player.xp stored = v)
        /\ (forall v, PlayerUpdate.coins updates = Some v ->
                      Player.coins stored = v)
        /\ (forall v, PlayerUpdate.diamonds updates = Some v ->
                      Player.diamonds stored = v)
        /\ (forall v, PlayerUpdate.wins updates = Some v ->
                      Player.wins stored = v)
        /\ (forall v, PlayerUpdate.losses updates = Some v ->
                      Player.losses stored = v)
        /\ (forall v, PlayerUpdate.goals updates = Some v ->
                      Player.goals stored = v))
  /\ xp_normalised alice
  /\ update_player "p1" wild_patch db_alice
     = (Return alice_wild, mkDB [alice_wild] [] [])
  /\ ~ xp_normalised alice_wild
  /\ Player.coins alice_wild < 0
  /\ Player.wins alice_wild < 0.
Proof.
  split.
  - intros player_id updates db player Hne Hfits Hp.
    destruct (update_player_found player_id updates db player Hne Hfits Hp)
      as (ps & Hu & Hf & _).
    exists (set_player updates player), ps.
    split; [exact Hu|]. split; [exact Hf|].
    repeat split; intros v Hv; simpl; rewrite Hv; reflexivity.
  - unfold xp_normalised. simpl.
    repeat split; try reflexivity; lia.
Qed.

Lemma C9_update_player_writes_verbatim_witness :
  exists stored ps,
    update_player "p1" wild_patch db_alice
    = (Return stored, mkDB ps (customizations db_alice) (matches db_alice))
    /\ find_one (by_id "p1") ps = Some stored
    /\ Player.xp stored = 500
    /\ Player.level stored = 2.
Proof.
  destruct (proj1 C9_update_player_writes_verbatim
                  "p1" wild_patch db_alice alice)
    as (stored & ps & Hu & Hf & Hl & Hx & _).
  - discriminate.
  - fits.
  - reflexivity.
  - exists stored, ps. repeat split; try assumption.
    + apply Hx. reflexivity.
    + apply Hl. reflexivity.
Defined.

(** * Further properties of the endpoints *)

(** ** The level-up loop on any integers *)

(** X1.  Whatever integers the loop starts from (a level of 0 or below, an
    xp debt), it stops with the xp below the cost of the level reached, at a
    level no lower than the one it started from, and the xp it took away is
    the cost of the levels it passed. *)
Theorem level_up_exit_any (new_xp new_level : Z) :
  fst (level_up new_xp new_level) < snd (level_up new_xp new_level) * 100
  /\ new_level <= snd (level_up new_xp new_level)
  /\ fst (level_up new_xp new_level)
     + levels_cost (snd (level_up new_xp new_level))
     = new_xp + levels_cost new_level.
Proof.
  unfold levels_cost.
  funelim (level_up new_xp new_level).
  - match goal with
    | IH : _ /\ _ /\ _ |- _ => destruct IH as (Hb & Hle & Hsum)
    end.
    repeat split; lia.
  - simpl. repeat split; lia.
Qed.

(** ** Recording a match, on every input *)

Lemma map_update_one {A B : Type} (f : A -> bool) (g : A -> A) (h : A -> B) c :
  (forall d, h (g d) = h d) ->
  map h (snd (update_one f g c)) = map h c.
Proof.
  intros Hg. induction c as [|d c IH]; simpl; [reflexivity|].
  destruct (f d); simpl.
  - rewrite Hg. reflexivity.
  - destruct (update_one f g c) as [n c']. simpl in *. rewrite IH.
    reflexivity.
Qed.

(** The dictionary that reaches the write never has the keys [avatar],
    [diamonds] or [losses]. *)
Lemma stat_updates_keys player match_data updates :
  stat_updates player match_data = Return updates ->
  MatchResultCreate.result match_data = "win"
  /\ PlayerUpdate.avatar updates = None
  /\ PlayerUpdate.diamonds updates = None
  /\ PlayerUpdate.losses updates = None.
Proof.
  destruct (string_dec (MatchResultCreate.result match_data) "win")
    as [Hr | Hr].
  - intros Hu. split; [exact Hr|]. revert Hu. unfold stat_updates.
    apply String.eqb_eq in Hr. rewrite Hr. simpl.
    destruct (level_up _ _) as [x l]. simpl.
    repeat match goal with
           | |- context [if ?b then _ else _] => destruct b
           end;
      intros Hu; injection Hu as <-; repeat split.
  - rewrite (stat_updates_not_win _ _ Hr). discriminate.
Qed.

(** What [create_match_result] leaves behind: the matches as they were or
    with the new one appended, the customizations as they were, and the
    players either as they were or with the one [$set] of a won match
    applied. *)
Lemma create_match_result_shape new_id now match_data db :
  exists ps ms,
    snd (create_match_result new_id now match_data db)
    = mkDB ps (customizations db) ms
    /\ (ms = matches db
        \/ ms = insert_one (new_match new_id now match_data) (matches db))
    /\ (ps = players db
        \/ exists player updates,
             find_one (by_id (MatchResultCreate.player_id match_data))
                      (players db) = Some player
             /\ stat_updates player match_data = Return updates
             /\ ps = snd (update_one
                            (by_id (MatchResultCreate.player_id match_data))
                            (set_player updates) (players db))).
Proof.
  destruct (create_match_result_cases new_id now match_data db)
    as [(_ & ->)
       | [(_ & _ & ->)
         | [(player & _ & _ & _ & ->)
           | [(player & updates & _ & _ & _ & _ & _ & ->)
             | (player & updates & _ & Hp & _ & Hu & _ & ->)]]]];
    cbn [snd].
  - exists (players db), (matches db). rewrite mkDB_eta.
    split; [reflexivity|]. split; left; reflexivity.
  - eexists. eexists. split; [reflexivity|].
    split; [right | left]; reflexivity.
  - eexists. eexists. split; [reflexivity|].
    split; [right | left]; reflexivity.
  - eexists. eexists. split; [reflexivity|].
    split; [right | left]; reflexivity.
  - eexists. eexists. split; [reflexivity|].
    split; [right; reflexivity | right].
    exists player, updates. split_conj; try assumption; reflexivity.
Qed.

(** X2.  [create_match_result] goes one of four ways.  A match with an
    integer that does not fit the store raises [OverflowError] at the
    insert and nothing is stored.  Otherwise the match is stored, and then:
    with no player under the id the match is returned; with a player and a
    result other than "win" [KeyError('wins')] is raised; with a player and
    a win whose new totals do not fit the store [OverflowError] is raised at
    the update and the players stay as they were; with a player and a win
    whose totals fit the match is returned. *)
Theorem create_match_result_outcome new_id now match_data db :
  let match_ := new_match new_id now match_data in
  let stored :=
    mkDB (players db) (customizations db) (matches db ++ [match_]) in
  (~ match_fits match_data ->
   create_match_result new_id now match_data db
   = (Raise (OverflowError "MongoDB can only handle up to 8-byte ints"), db))
  /\ (match_fits match_data ->
      find_one (by_id (MatchResultCreate.player_id match_data)) (players db)
      = None ->
      create_match_result new_id now match_data db = (Return match_, stored))
  /\ (match_fits match_data ->
      forall player,
        find_one (by_id (MatchResultCreate.player_id match_data))
                 (players db) = Some player ->
        (MatchResultCreate.result match_data <> "win" ->
         create_match_result new_id now match_data db
         = (Raise (KeyError "wins"), stored))
        /\ (MatchResultCreate.result match_data = "win" ->
            ~ totals_fit player match_data ->
            create_match_result new_id now match_data db
            = (Raise (OverflowError
                        "MongoDB can only handle up to 8-byte ints"),
               stored))
        /\ (MatchResultCreate.result match_data = "win" ->
            totals_fit player match_data ->
            fst (create_match_result new_id now match_data db)
            = Return match_)).
Proof.
  intros match_ stored.
  destruct (create_match_result_cases new_id now match_data db)
    as [(Hno & Hc)
       | [(Hm & Hp & Hc)
         | [(player & Hm & Hp & Hr & Hc)
           | [(player & updates & Hm & Hp & Hr & Hu & Ht & Hc)
             | (player & updates & Hm & Hp & Hr & Hu & Ht & Hc)]]]];
    rewrite Hc; (split; [|split]);
    try (intros; contradiction); try (intros; congruence);
    try (intros; reflexivity);
    intros _ player' Hp'; rewrite Hp in Hp'; injection Hp' as Heq;
    subst player'; split_conj; intros;
    try contradiction; try congruence; reflexivity.
Qed.

Lemma create_match_result_outcome_witness :
  create_match_result "m9" 1000 ghost_match_huge db_alice
  = (Raise (OverflowError "MongoDB can only handle up to 8-byte ints"),
     db_alice)
  /\ create_match_result "m5" 1000 midas_wins db_midas
     = (Raise (OverflowError "MongoDB can only handle up to 8-byte ints"),
        mkDB [midas] [] [new_match "m5" 1000 midas_wins]).
Proof.
  split.
  - apply (proj1 (create_match_result_outcome "m9" 1000 ghost_match_huge
                                              db_alice)).
    unfold match_fits, int64. vm_compute. intuition congruence.
  - apply (proj1 (proj2 (proj2 (proj2 (create_match_result_outcome
                                         "m5" 1000 midas_wins db_midas))
                               ltac:(fits) midas eq_refl))).
    + reflexivity.
    + unfold totals_fit, int64. vm_compute. intuition congruence.
Defined.

(** X3.  Whatever is submitted, and whether or not the request then fails,
    [create_match_result] changes no match that was stored: it appends
    exactly the one new record when the integers of the match fit the
    store, and leaves the whole database as it was when they do not.  The
    customizations stay as they were; no player is added, removed or has
    its id, username, email or creation time changed; and a player stored
    under another id is found unchanged. *)
Theorem create_match_result_frame new_id now match_data db :
  (match_fits match_data ->
   matches (snd (create_match_result new_id now match_data db))
   = (matches db ++ [new_match new_id now match_data])%list)
  /\ (~ match_fits match_data ->
      snd (create_match_result new_id now match_data db) = db)
  /\ customizations (snd (create_match_result new_id now match_data db))
     = customizations db
  /\ map Player.id (players (snd (create_match_result new_id now match_data db)))
     = map Player.id (players db)
  /\ map Player.username
         (players (snd (create_match_result new_id now match_data db)))
     = map Player.username (players db)
  /\ map Player.email
         (players (snd (create_match_result new_id now match_data db)))
     = map Player.email (players db)
  /\ map Player.created_at
         (players (snd (create_match_result new_id now match_data db)))
     = map Player.created_at (players db)
  /\ (forall i, i <> MatchResultCreate.player_id match_data ->
        find_one (by_id i)
                 (players (snd (create_match_result new_id now match_data db)))
        = find_one (by_id i) (players db)).
Proof.
  split; [|split].
  - intros Hm.
    destruct (create_match_result_cases new_id now match_data db)
      as [(Hno & _)
         | [(_ & _ & ->)
           | [(player & _ & _ & _ & ->)
             | [(player & updates & _ & _ & _ & _ & _ & ->)
               | (player & updates & _ & _ & _ & _ & _ & ->)]]]];
      try contradiction; reflexivity.
  - intros Hno.
    destruct (create_match_result_cases new_id now match_data db)
      as [(_ & ->)
         | [(Hm & _)
           | [(player & Hm & _)
             | [(player & updates & Hm & _)
               | (player & updates & Hm & _)]]]];
      try contradiction; reflexivity.
  - destruct (create_match_result_shape new_id now match_data db)
      as (ps & ms & -> & _ & Hps).
    cbn [players customizations matches].
    destruct Hps as [-> | (player & updates & _ & _ & ->)].
    + repeat split.
    + repeat split; try (apply map_update_one; intros d; reflexivity).
      intros i Hi. apply find_one_update_one_other.
      * intros d. apply set_player_id.
      * intros d. apply by_id_other. exact Hi.
Qed.

(** X4.  No recorded match ever changes the losses, the diamonds or the
    avatar of any player: a won match does not write them, and a match with
    any other result fails before it writes. *)
Theorem create_match_result_never_writes_losses new_id now match_data db :
  map Player.losses
      (players (snd (create_match_result new_id now match_data db)))
  = map Player.losses (players db)
  /\ map Player.diamonds
         (players (snd (create_match_result new_id now match_data db)))
     = map Player.diamonds (players db)
  /\ map Player.avatar
         (players (snd (create_match_result new_id now match_data db)))
     = map Player.avatar (players db).
Proof.
  destruct (create_match_result_shape new_id now match_data db)
    as (ps & ms & -> & _ & Hps).
  cbn [players].
  destruct Hps as [-> | (player & updates & _ & Hu & ->)];
    [repeat split|].
  apply stat_updates_keys in Hu. destruct Hu as (_ & Ha & Hd & Hl).
  repeat split; apply map_update_one; intros d; simpl;
    rewrite ?Ha, ?Hd, ?Hl; reflexivity.
Qed.

(** X5.  A won match of an existing player, with the integers of the match
    and the player's new totals fitting the store, adds the reported xp,
    coins and goals to the stored totals.  The level stored is the one the
    loop reaches from the old level with the new xp total: it is never
    below the old level, the xp total less the cost of the levels gained
    is below the cost of the new level, and it is not negative when the
    old level is at least 1 and the xp total is not negative. *)
Theorem create_match_result_win_progress new_id now match_data db player :
  find_one (by_id (MatchResultCreate.player_id match_data)) (players db)
  = Some player ->
  MatchResultCreate.result match_data = "win" ->
  match_fits match_data ->
  totals_fit player match_data ->
  exists player',
    find_one (by_id (MatchResultCreate.player_id match_data))
             (players (snd (create_match_result new_id now match_data db)))
    = Some player'
    /\ Player.xp player'
       = Player.xp player + MatchResultCreate.xp_earned match_data
    /\ Player.coins player'
       = Player.coins player + MatchResultCreate.coins_earned match_data
    /\ Player.goals player'
       = Player.goals player + MatchResultCreate.player_goals match_data
    /\ Player.level player'
       = snd (level_up (Player.xp player') (Player.level player))
    /\ Player.level player <= Player.level player'
    /\ Player.xp player'
       - (levels_cost (Player.level player')
          - levels_cost (Player.level player))
       < Player.level player' * 100
    /\ (1 <= Player.level player -> 0 <= Player.xp player' ->
        0 <= Player.xp player'
             - (levels_cost (Player.level player')
                - levels_cost (Player.level player))).
Proof.
  intros Hp Hr Hm Ht.
  destruct (create_match_result_win new_id now match_data db player
                                    Hm Ht Hp Hr)
    as (updates & ps & Hu & Hc & Hf).
  destruct (stat_updates_win player match_data Hr)
    as (updates' & Hu' & _ & _ & _ & Hxp & Hlevel & Hcoins & Hgoals & _).
  rewrite Hu in Hu'. injection Hu' as <-. cbv zeta in *.
  exists (set_player updates player). rewrite Hc. cbn [snd players].
  rewrite Hlevel, Hxp, Hcoins, Hgoals.
  pose proof (level_up_exit_any
                (Player.xp player + MatchResultCreate.xp_earned match_data)
                (Player.level player)) as (Hlt & Hle & Hsum).
  repeat split; try assumption; try lia.
  intros Hl Hx.
  pose proof (level_up_exit
                (Player.xp player + MatchResultCreate.xp_earned match_data)
                (Player.level player) Hl Hx) as ((H0 & _) & _ & _).
  lia.
Qed.

Lemma create_match_result_win_progress_witness :
  exists player',
    find_one (by_id (MatchResultCreate.player_id alice_wins_350))
             (players (snd (create_match_result "m1" 1000 alice_wins_350
                                                db_alice)))
    = Some player'
    /\ Player.xp player'
       = Player.xp alice + MatchResultCreate.xp_earned alice_wins_350
    /\ Player.coins player'
       = Player.coins alice + MatchResultCreate.coins_earned alice_wins_350
    /\ Player.goals player'
       = Player.goals alice + MatchResultCreate.player_goals alice_wins_350
    /\ Player.level player'
       = snd (level_up (Player.xp player') (Player.level alice))
    /\ Player.level alice <= Player.level player'
    /\ Player.xp player'
       - (levels_cost (Player.level player')
          - levels_cost (Player.level alice))
       < Player.level player' * 100
    /\ (1 <= Player.level alice -> 0 <= Player.xp player' ->
        0 <= Player.xp player'
             - (levels_cost (Player.level player')
                - levels_cost (Player.level alice))).
Proof.
  apply (create_match_result_win_progress "m1" 1000 alice_wins_350 db_alice
                                          alice).
  - reflexivity.
  - reflexivity.
  - fits.
  - fits.
Defined.

(** ** Looking players up *)

Lemma by_id_true i p : by_id i p = true <-> Player.id p = i.
Proof. unfold by_id. apply String.eqb_eq. Qed.

(** X6.  [get_player] returns a stored player that has the requested id, the
    first one in storage order, and fails with the 404 "Player not found"
    only when no stored player has it; [get_player_by_email] does the same
    on the email. *)
Theorem get_player_sound key db :
  match get_player key db with
  | Return player =>
      find_one (by_id key) (players db) = Some player
      /\ In player (players db) /\ Player.id player = key
  | Raise e =>
      e = HTTPException 404 "Player not found"
      /\ forall p, In p (players db) -> Player.id p <> key
  end
  /\ match get_player_by_email key db with
     | Return player =>
         find_one (by_email key) (players db) = Some player
         /\ In player (players db) /\ Player.email player = key
     | Raise e =>
         e = HTTPException 404 "Player not found"
         /\ forall p, In p (players db) -> Player.email p <> key
     end.
Proof.
  unfold get_player, get_player_by_email, find_one. split.
  - destruct (find (by_id key) (players db)) as [player|] eqn:Hf.
    + apply find_some in Hf. destruct Hf as [Hin Hid].
      repeat split; [exact Hin | apply by_id_true, Hid].
    + split; [reflexivity|]. intros p Hin Hid.
      pose proof (find_none _ _ Hf p Hin) as Hno.
      apply by_id_true in Hid. congruence.
  - destruct (find (by_email key) (players db)) as [player|] eqn:Hf.
    + apply find_some in Hf. destruct Hf as [Hin He].
      repeat split; [exact Hin | apply by_email_true, He].
    + split; [reflexivity|]. intros p Hin He.
      pose proof (find_none _ _ Hf p Hin) as Hno.
      apply by_email_true in He. congruence.
Qed.

Lemma find_one_insert_one_found {A : Type} (f : A -> bool) c d e :
  find_one f c = Some e -> find_one f (insert_one d c) = Some e.
Proof.
  unfold find_one, insert_one.
  induction c as [|x c IH]; simpl; [discriminate|].
  destruct (f x); [trivial | exact IH].
Qed.

(** X7.  A player that [create_player] has returned is the one
    [get_player_by_email] then returns for the email, and the one
    [get_player] returns for the new id unless an older player already has
    that id; a lookup that found a player before the creation finds the
    same player after it. *)
Theorem create_player_then_get new_id now player_data db player db' :
  create_player new_id now player_data db = (Return player, db') ->
  get_player_by_email (PlayerCreate.email player_data) db' = Return player
  /\ (find_one (by_id new_id) (players db) = None ->
      get_player new_id db' = Return player)
  /\ (forall i, find_one (by_id i) (players db) <> None ->
                get_player i db' = get_player i db)
  /\ (forall e, find_one (by_email e) (players db) <> None ->
                get_player_by_email e db' = get_player_by_email e db).
Proof.
  unfold create_player.
  destruct (find_one (by_email (PlayerCreate.email player_data)) (players db))
    eqn:Hfind; [discriminate|].
  intros Hc. injection Hc as <- <-.
  unfold get_player, get_player_by_email. cbn [players].
  split; [|split; [|split]].
  - rewrite (find_one_insert_one_none _ _ _ Hfind).
    unfold by_email. simpl. rewrite String.eqb_refl. reflexivity.
  - intros Hid. rewrite (find_one_insert_one_none _ _ _ Hid).
    unfold by_id. simpl. rewrite String.eqb_refl. reflexivity.
  - intros i Hi.
    destruct (find_one (by_id i) (players db)) as [p|] eqn:Hp;
      [|congruence].
    rewrite (find_one_insert_one_found _ _ _ _ Hp). reflexivity.
  - intros e He.
    destruct (find_one (by_email e) (players db)) as [p|] eqn:Hp;
      [|congruence].
    rewrite (find_one_insert_one_found _ _ _ _ Hp). reflexivity.
Qed.

Lemma create_player_then_get_witness :
  get_player_by_email (PlayerCreate.email dave_data)
                      (mkDB [alice; new_player "p9" 7 dave_data] [] [])
  = Return (new_player "p9" 7 dave_data)
  /\ (find_one (by_id "p9") (players db_alice) = None ->
      get_player "p9" (mkDB [alice; new_player "p9" 7 dave_data] [] [])
      = Return (new_player "p9" 7 dave_data))
  /\ (forall i, find_one (by_id i) (players db_alice) <> None ->
                get_player i (mkDB [alice; new_player "p9" 7 dave_data] [] [])
                = get_player i db_alice)
  /\ (forall e, find_one (by_email e) (players db_alice) <> None ->
                get_player_by_email
                  e (mkDB [alice; new_player "p9" 7 dave_data] [] [])
                = get_player_by_email e db_alice).
Proof.
  apply (create_player_then_get "p9" 7 dave_data db_alice).
  reflexivity.
Defined.

(** X8.  Once a player has been created, or refused, for an email, every
    further [create_player] with that email fails with the 400 "Player with
    this email already exists" and writes nothing. *)
Theorem create_player_twice new_id now player_data new_id' now' player_data'
    db :
  PlayerCreate.email player_data' = PlayerCreate.email player_data ->
  create_player new_id' now' player_data'
                (snd (create_player new_id now player_data db))
  = (Raise (HTTPException 400 "Player with this email already exists"),
     snd (create_player new_id now player_data db)).
Proof.
  intros He. unfold create_player at 1. rewrite He.
  unfold create_player.
  destruct (find_one (by_email (PlayerCreate.email player_data)) (players db))
    as [existing|] eqn:Hfind; cbn [snd players].
  - rewrite Hfind. reflexivity.
  - rewrite (find_one_insert_one_none _ _ _ Hfind).
    unfold by_email at 1. simpl. rewrite String.eqb_refl. reflexivity.
Qed.

Lemma create_player_twice_witness :
  create_player "p8" 9 (PlayerCreate.mk "david" "dave@example.com")
                (snd (create_player "p9" 7 dave_data db_alice))
  = (Raise (HTTPException 400 "Player with this email already exists"),
     snd (create_player "p9" 7 dave_data db_alice)).
Proof.
  apply (create_player_twice "p9" 7 dave_data "p8" 9
                             (PlayerCreate.mk "david" "dave@example.com")
                             db_alice).
  reflexivity.
Defined.

(** ** Field updates *)

Lemma update_player_found_eq player_id updates db player :
  updates <> PlayerUpdate.mk None None None None None None None None None ->
  update_fits updates ->
  find_one (by_id player_id) (players db) = Some player ->
  update_player player_id updates db
  = (Return (set_player updates player),
     mkDB (snd (update_one (by_id player_id) (set_player updates)
                           (players db)))
          (customizations db) (matches db)).
Proof.
  intros Hne Hfits Hp.
  destruct (update_player_cases player_id updates db)
    as [(He & _)
       | [(_ & Hno & _)
         | [(_ & _ & Hp' & _) | (player' & _ & _ & Hp' & Hu)]]];
    try contradiction; try congruence.
Qed.

(** X9.  [update_player] has four outcomes and no other: the 400 exactly
    when no field is supplied; [OverflowError] exactly when a field is
    supplied and some supplied integer does not fit the store, whether or
    not the id has a player; the 404 exactly when a field is supplied, the
    integers fit and no player has the id; and otherwise a player is
    returned.  The lookup after the write always finds the record, so the
    request never fails on a missing document, and a request that fails
    writes nothing. *)
Theorem update_player_outcome player_id updates db :
  (fst (update_player player_id updates db)
   = Raise (HTTPException 400 "No valid fields to update")
   <-> updates
       = PlayerUpdate.mk None None None None None None None None None)
  /\ (fst (update_player player_id updates db)
      = Raise (OverflowError "MongoDB can only handle up to 8-byte ints")
      <-> updates
          <> PlayerUpdate.mk None None None None None None None None None
          /\ ~ update_fits updates)
  /\ (fst (update_player player_id updates db)
      = Raise (HTTPException 404 "Player not found")
      <-> updates
          <> PlayerUpdate.mk None None None None None None None None None
          /\ update_fits updates
          /\ find_one (by_id player_id) (players db) = None)
  /\ ((exists updated_player,
         fst (update_player player_id updates db) = Return updated_player)
      <-> updates
          <> PlayerUpdate.mk None None None None None None None None None
          /\ update_fits updates
          /\ find_one (by_id player_id) (players db) <> None)
  /\ (forall e, fst (update_player player_id updates db) = Raise e ->
                snd (update_player player_id updates db) = db).
Proof.
  destruct (update_player_cases player_id updates db)
    as [(He & Hu)
       | [(Hne & Hno & Hu)
         | [(Hne & Hfits & Hp & Hu) | (player & Hne & Hfits & Hp & Hu)]]];
    rewrite Hu; cbn [fst snd]; unfold overflow;
    split_conj; try split; intros;
    repeat match goal with
           | H : exists _, _ |- _ => destruct H
           | H : _ /\ _ |- _ => destruct H
           end;
    split_conj;
    try reflexivity; try discriminate; try assumption; try contradiction;
    try congruence;
    try (eexists; reflexivity).
Qed.

(** X10.  Whatever the outcome, [update_player] adds and removes no player,
    changes no id, username, email or creation time, leaves a player stored
    under another id as it finds it, and does not touch customizations or
    matches. *)
Theorem update_player_frame player_id updates db :
  map Player.id (players (snd (update_player player_id updates db)))
  = map Player.id (players db)
  /\ map Player.username (players (snd (update_player player_id updates db)))
     = map Player.username (players db)
  /\ map Player.email (players (snd (update_player player_id updates db)))
     = map Player.email (players db)
  /\ map Player.created_at
         (players (snd (update_player player_id updates db)))
     = map Player.created_at (players db)
  /\ (forall i, i <> player_id ->
        find_one (by_id i) (players (snd (update_player player_id updates db)))
        = find_one (by_id i) (players db))
  /\ customizations (snd (update_player player_id updates db))
     = customizations db
  /\ matches (snd (update_player player_id updates db)) = matches db.
Proof.
  destruct (update_player_cases player_id updates db)
    as [(_ & ->)
       | [(_ & _ & ->) | [(_ & _ & _ & ->) | (player & _ & _ & _ & ->)]]];
    cbn [snd players customizations matches].
  - repeat split.
  - repeat split.
  - repeat split.
  - repeat split; try (apply map_update_one; intros d; reflexivity).
    intros i Hi. apply find_one_update_one_other.
    + intros d. apply set_player_id.
    + intros d. apply by_id_other. exact Hi.
Qed.

Lemma set_player_twice d p : set_player d (set_player d p) = set_player d p.
Proof.
  destruct d as [a l x c dm r w ls g].
  destruct a, l, x, c, dm, r, w, ls, g; reflexivity.
Qed.

Lemma update_one_twice {A : Type} (f : A -> bool) (g : A -> A) c :
  (forall d, f (g d) = f d) ->
  (forall d, g (g d) = g d) ->
  snd (update_one f g (snd (update_one f g c))) = snd (update_one f g c).
Proof.
  intros Hfg Hgg. induction c as [|d c IH]; simpl; [reflexivity|].
  destruct (f d) eqn:Hd; simpl.
  - rewrite Hfg, Hd. simpl. rewrite Hgg. reflexivity.
  - destruct (update_one f g c) as [n c'] eqn:Hu. simpl in *.
    rewrite Hd. destruct (update_one f g c') as [n' c'']. simpl in *.
    rewrite IH. reflexivity.
Qed.

(** X11.  Sending the same update again changes nothing more: the second
    [update_player] has the outcome of the first and leaves the database as
    the first left it. *)
Theorem update_player_idempotent player_id updates db :
  update_player player_id updates (snd (update_player player_id updates db))
  = (fst (update_player player_id updates db),
     snd (update_player player_id updates db)).
Proof.
  destruct (update_player_cases player_id updates db)
    as [(He & Hu)
       | [(He & Hno & Hu)
         | [(He & Hfits & Hp & Hu) | (player & He & Hfits & Hp & Hu)]]];
    rewrite Hu; cbn [fst snd].
  - exact Hu.
  - exact Hu.
  - exact Hu.
  - rewrite (update_player_found_eq player_id updates _
               (set_player updates player) He Hfits).
    + cbn [players customizations matches].
      rewrite set_player_twice, update_one_twice; [reflexivity | |].
      * intros d. apply set_player_id.
      * intros d. apply set_player_twice.
    + cbn [players].
      rewrite find_one_update_one by (intros d; apply set_player_id).
      rewrite Hp. reflexivity.
Qed.

(** X12.  The record [update_player] returns is the record [get_player]
    returns for the id right after. *)
Theorem update_player_then_get player_id updates db updated_player :
  fst (update_player player_id updates db) = Return updated_player ->
  get_player player_id (snd (update_player player_id updates db))
  = Return updated_player.
Proof.
  destruct (update_player_cases player_id updates db)
    as [(_ & ->)
       | [(_ & _ & ->) | [(_ & _ & _ & ->) | (player & _ & _ & Hp & ->)]]];
    cbn [fst snd]; try discriminate.
  intros Hr. injection Hr as <-.
  unfold get_player. cbn [players].
  rewrite find_one_update_one by (intros d; apply set_player_id).
  rewrite Hp. reflexivity.
Qed.

Lemma update_player_then_get_witness :
  get_player "p1" (snd (update_player "p1" coins_patch db_alice))
  = Return alice_1500.
Proof.
  apply (update_player_then_get "p1" coins_patch db_alice alice_1500).
  reflexivity.
Defined.

(** ** One player per email *)

Lemma find_one_by_email_none e ps :
  find_one (by_email e) ps = None -> ~ In e (map Player.email ps).
Proof.
  intros Hf Hin. apply in_map_iff in Hin. destruct Hin as (p & He & Hin).
  pose proof (find_none _ _ Hf p Hin) as Hno.
  apply by_email_true in He. congruence.
Qed.

(** X13.  If no two stored players share an email, none do after
    [create_player], [update_player] or [create_match_result], whatever
    their input and outcome. *)
Theorem unique_emails_kept db :
  unique_emails db ->
  (forall new_id now player_data,
      unique_emails (snd (create_player new_id now player_data db)))
  /\ (forall player_id updates,
         unique_emails (snd (update_player player_id updates db)))
  /\ (forall new_id now match_data,
         unique_emails (snd (create_match_result new_id now match_data db))).
Proof.
  unfold unique_emails. intros Hu. split; [|split].
  - intros new_id now player_data. unfold create_player.
    destruct (find_one (by_email (PlayerCreate.email player_data))
                       (players db)) as [existing|] eqn:Hfind;
      cbn [snd players]; [exact Hu|].
    unfold insert_one. rewrite map_app. cbn [map].
    apply (Permutation_NoDup (Permutation_cons_append _ _)).
    constructor; [|exact Hu].
    apply find_one_by_email_none, Hfind.
  - intros player_id updates.
    destruct (update_player_frame player_id updates db)
      as (_ & _ & -> & _).
    exact Hu.
  - intros new_id now match_data.
    destruct (create_match_result_frame new_id now match_data db)
      as (_ & _ & _ & _ & _ & -> & _).
    exact Hu.
Qed.

Lemma unique_emails_kept_witness :
  (forall new_id now player_data,
      unique_emails (snd (create_player new_id now player_data db_alice)))
  /\ (forall player_id updates,
         unique_emails (snd (update_player player_id updates db_alice)))
  /\ (forall new_id now match_data,
         unique_emails (snd (create_match_result new_id now match_data
                                                 db_alice))).
Proof.
  apply (unique_emails_kept db_alice).
  unfold unique_emails. simpl. constructor; [intros [] | constructor].
Defined.

(** ** Creating and updating customizations *)

Lemma by_player_id_true i c :
  by_player_id i c = true <-> CarCustomization.player_id c = i.
Proof. unfold by_player_id. apply String.eqb_eq. Qed.

Lemma new_customization_player_id new_id now custom_data customization :
  new_customization new_id now custom_data = Return customization ->
  CarCustomization.player_id customization
  = CarCustomizationCreate.player_id custom_data.
Proof.
  unfold new_customization.
  destruct custom_data as [pid cm bc de wh be ge].
  destruct cm, bc, de, wh, be, ge; try discriminate.
  intros H. injection H as <-. reflexivity.
Qed.

Lemma new_customization_raise new_id now custom_data e :
  new_customization new_id now custom_data = Raise e ->
  e = ValueError "CarCustomization".
Proof.
  unfold new_customization.
  destruct custom_data as [pid cm bc de wh be ge].
  destruct cm, bc, de, wh, be, ge; simpl; congruence.
Qed.

(** After [get_customization] the player has a stored customization, the
    one returned. *)
Lemma get_customization_stored new_id now player_id db :
  exists custom,
    fst (get_customization new_id now player_id db) = Return custom
    /\ find_one (by_player_id player_id)
                (customizations (snd (get_customization new_id now player_id
                                                        db)))
       = Some custom.
Proof.
  unfold get_customization.
  destruct (find_one (by_player_id player_id) (customizations db))
    as [existing|] eqn:Hfind.
  - exists existing. split; [reflexivity | exact Hfind].
  - eexists. split; [reflexivity|]. cbn [snd customizations].
    rewrite (find_one_insert_one_none _ _ _ Hfind).
    rewrite by_player_id_default. reflexivity.
Qed.

(** X14.  [create_customization] fails with the 400 "Customization already
    exists for this player" exactly when a customization is stored for the
    player.  Otherwise a request with a cosmetic field sent as [null] is
    refused by the model with a [ValueError], and a request with all six
    fields given appends and returns a record that carries them.  A request
    that fails writes nothing. *)
Theorem create_customization_outcome new_id now custom_data db :
  (fst (create_customization new_id now custom_data db)
   = Raise (HTTPException 400 "Customization already exists for this player")
   <-> find_one (by_player_id (CarCustomizationCreate.player_id custom_data))
                (customizations db) <> None)
  /\ (forall e, fst (create_customization new_id now custom_data db) = Raise e
                -> snd (create_customization new_id now custom_data db) = db)
  /\ (find_one (by_player_id (CarCustomizationCreate.player_id custom_data))
               (customizations db) = None ->
      (forall car_model body_color decal wheels boost_effect goal_explosion,
          custom_data
          = CarCustomizationCreate.mk
              (CarCustomizationCreate.player_id custom_data)
              (Some car_model) (Some body_color) (Some decal) (Some wheels)
              (Some boost_effect) (Some goal_explosion) ->
          let customization :=
            CarCustomization.mk
              new_id (CarCustomizationCreate.player_id custom_data)
              car_model body_color decal wheels boost_effect goal_explosion
              now in
          create_customization new_id now custom_data db
          = (Return customization,
             mkDB (players db) (customizations db ++ [customization])
                  (matches db)))
      /\ ((CarCustomizationCreate.car_model custom_data = None
           \/ CarCustomizationCreate.body_color custom_data = None
           \/ CarCustomizationCreate.decal custom_data = None
           \/ CarCustomizationCreate.wheels custom_data = None
           \/ CarCustomizationCreate.boost_effect custom_data = None
           \/ CarCustomizationCreate.goal_explosion custom_data = None) ->
          create_customization new_id now custom_data db
          = (Raise (ValueError "CarCustomization"), db))).
Proof.
  unfold create_customization.
  destruct (find_one _ (customizations db)) as [existing|] eqn:Hfind.
  - cbn [fst snd]. split; [|split].
    + split; [discriminate | reflexivity].
    + reflexivity.
    + discriminate.
  - split; [|split].
    + split; [|congruence].
      destruct (new_customization new_id now custom_data) as [c|e] eqn:Hn;
        [discriminate|].
      apply new_customization_raise in Hn. subst e. discriminate.
    + intros e. destruct (new_customization new_id now custom_data);
        [discriminate | reflexivity].
    + intros _. split.
      * intros cm bc de wh be ge ->. reflexivity.
      * destruct custom_data as [pid cm bc de wh be ge]. simpl.
        intros [H | [H | [H | [H | [H | H]]]]]; subst;
          unfold new_customization; simpl;
          repeat match goal with
                 | |- context [match ?o with Some _ => _ | None => _ end] =>
                     destruct o
                 end; reflexivity.
Qed.

Lemma create_customization_outcome_witness :
  create_customization "c9" 20 alice_car_data db_alice
  = (Return (CarCustomization.mk "c9" "p1" "octane" "#00FF00" "flames"
                                 "default" "blue" "default" 20),
     mkDB [alice]
          [CarCustomization.mk "c9" "p1" "octane" "#00FF00" "flames"
                               "default" "blue" "default" 20] [])
  /\ create_customization "c9" 20 alice_car_null db_alice
     = (Raise (ValueError "CarCustomization"), db_alice)
  /\ fst (create_customization "c9" 20 alice_car_data db_alice_car)
     = Raise (HTTPException 400
                            "Customization already exists for this player").
Proof.
  split; [|split].
  - apply (proj1 (proj2 (proj2 (create_customization_outcome
                                  "c9" 20 alice_car_data db_alice))
                        eq_refl)).
    reflexivity.
  - apply (proj2 (proj2 (proj2 (create_customization_outcome
                                  "c9" 20 alice_car_null db_alice))
                        eq_refl)).
    left. reflexivity.
  - apply (proj1 (create_customization_outcome
                    "c9" 20 alice_car_data db_alice_car)).
    discriminate.
Defined.

(** X15.  A customization that [create_customization] has returned is what
    [get_customization] then returns for the player, without a write; and
    once [get_customization] has been called for a player, by then a
    customization is stored, so [create_customization] for that player
    fails with the 400 and writes nothing. *)
Theorem create_customization_then_get new_id now custom_data db :
  (forall customization db' new_id' now',
      create_customization new_id now custom_data db
      = (Return customization, db') ->
      get_customization new_id' now'
                        (CarCustomizationCreate.player_id custom_data) db'
      = (Return customization, db'))
  /\ (forall new_id' now',
         create_customization
           new_id' now' custom_data
           (snd (get_customization
                   new_id now
                   (CarCustomizationCreate.player_id custom_data) db))
         = (Raise (HTTPException
                     400 "Customization already exists for this player"),
            snd (get_customization
                   new_id now
                   (CarCustomizationCreate.player_id custom_data) db))).
Proof.
  split.
  - intros customization db' new_id' now'. unfold create_customization.
    destruct (find_one _ (customizations db)) as [existing|] eqn:Hfind;
      [discriminate|].
    destruct (new_customization new_id now custom_data) as [c|e] eqn:Hn;
      [|discriminate].
    intros H. injection H as <- <-.
    unfold get_customization. cbn [customizations].
    rewrite (find_one_insert_one_none _ _ _ Hfind).
    replace (by_player_id (CarCustomizationCreate.player_id custom_data) c)
      with true; [reflexivity|].
    symmetry. apply by_player_id_true.
    apply (new_customization_player_id _ _ _ _ Hn).
  - intros new_id' now'.
    destruct (get_customization_stored new_id now
                (CarCustomizationCreate.player_id custom_data) db)
      as (custom & _ & Hstored).
    unfold create_customization. rewrite Hstored. reflexivity.
Qed.

Lemma set_customization_player_id d now i c :
  by_player_id i (set_customization d now c) = by_player_id i c.
Proof. reflexivity. Qed.

(** The three ways [update_customization] can go. *)
Lemma update_customization_cases now player_id updates db :
  (CarCustomizationUpdate.is_empty updates = true
   /\ update_customization now player_id updates db
      = (Raise (HTTPException 400 "No valid fields to update"), db))
  \/ (CarCustomizationUpdate.is_empty updates = false
      /\ find_one (by_player_id player_id) (customizations db) = None
      /\ update_customization now player_id updates db
         = (Raise (HTTPException 404 "Customization not found"), db))
  \/ (exists custom,
        CarCustomizationUpdate.is_empty updates = false
        /\ find_one (by_player_id player_id) (customizations db) = Some custom
        /\ update_customization now player_id updates db
           = (Return (set_customization updates now custom),
              mkDB (players db)
                   (snd (update_one (by_player_id player_id)
                                    (set_customization updates now)
                                    (customizations db)))
                   (matches db))).
Proof.
  unfold update_customization.
  destruct (CarCustomizationUpdate.is_empty updates) eqn:He.
  - left. split; reflexivity.
  - destruct (find_one (by_player_id player_id) (customizations db))
      as [custom|] eqn:Hc.
    + right. right. exists custom. repeat split.
      pose proof (update_one_some (by_player_id player_id)
                    (set_customization updates now) (customizations db)
                    custom Hc) as Hone.
      pose proof (find_one_update_one (by_player_id player_id)
                    (set_customization updates now) (customizations db)
                    (fun d => set_customization_player_id updates now
                                                          player_id d))
        as Hfound.
      destruct (update_one _ _ _) as [n cs]. simpl in *. subst n. simpl.
      rewrite Hfound, Hc. reflexivity.
    + right. left. repeat split.
      rewrite (update_one_none _ _ _ Hc). simpl. rewrite mkDB_eta.
      reflexivity.
Qed.

(** X16.  [update_customization] with no field fails with the 400 and with
    no stored customization for the player fails with the 404; in both
    cases nothing is written, so, unlike [get_customization], it never
    creates a record.  Otherwise the first stored customization of the
    player gets each supplied field and the time of the request as
    [updated_at], keeps its id, its player id and its other fields, and is
    returned; players and matches are not touched. *)
Theorem update_customization_outcome now player_id updates db :
  (CarCustomizationUpdate.is_empty updates = true ->
   update_customization now player_id updates db
   = (Raise (HTTPException 400 "No valid fields to update"), db))
  /\ (CarCustomizationUpdate.is_empty updates = false ->
      find_one (by_player_id player_id) (customizations db) = None ->
      update_customization now player_id updates db
      = (Raise (HTTPException 404 "Customization not found"), db))
  /\ (CarCustomizationUpdate.is_empty updates = false ->
      forall custom,
        find_one (by_player_id player_id) (customizations db) = Some custom ->
        exists updated cs,
          update_customization now player_id updates db
          = (Return updated, mkDB (players db) cs (matches db))
          /\ find_one (by_player_id player_id) cs = Some updated
          /\ CarCustomization.id updated = CarCustomization.id custom
          /\ CarCustomization.player_id updated = player_id
          /\ CarCustomization.updated_at updated = now
          /\ applied (CarCustomizationUpdate.car_model updates)
                     (CarCustomization.car_model custom)
                     (CarCustomization.car_model updated)
          /\ applied (CarCustomizationUpdate.body_color updates)
                     (CarCustomization.body_color custom)
                     (CarCustomization.body_color updated)
          /\ applied (CarCustomizationUpdate.decal updates)
                     (CarCustomization.decal custom)
                     (CarCustomization.decal updated)
          /\ applied (CarCustomizationUpdate.wheels updates)
                     (CarCustomization.wheels custom)
                     (CarCustomization.wheels updated)
          /\ applied (CarCustomizationUpdate.boost_effect updates)
                     (CarCustomization.boost_effect custom)
                     (CarCustomization.boost_effect updated)
          /\ applied (CarCustomizationUpdate.goal_explosion updates)
                     (CarCustomization.goal_explosion custom)
                     (CarCustomization.goal_explosion updated)
          /\ map CarCustomization.player_id cs
             = map CarCustomization.player_id (customizations db)
          /\ (forall i, i <> player_id ->
                find_one (by_player_id i) cs
                = find_one (by_player_id i) (customizations db))).
Proof.
  destruct (update_customization_cases now player_id updates db)
    as [(He & Hu) | [(He & Hc & Hu) | (custom & He & Hc & Hu)]];
    rewrite Hu, He; (split; [|split]); try discriminate; try reflexivity;
    try (rewrite Hc; discriminate).
  intros _ custom' Hc'. rewrite Hc in Hc'. injection Hc' as <-.
  eexists. eexists. split; [reflexivity|].
  split.
  { rewrite find_one_update_one
      by (intros d; apply set_customization_player_id).
    rewrite Hc. reflexivity. }
  split; [reflexivity|].
  split.
  { apply find_some in Hc. apply by_player_id_true, Hc. }
  split; [reflexivity|].
  repeat split;
    try (unfold applied; simpl;
         match goal with |- context [or_old ?e _] => destruct e end;
         reflexivity).
  - apply map_update_one. intros d. reflexivity.
  - intros i Hi. apply find_one_update_one_other.
    + intros d. apply set_customization_player_id.
    + intros d Hd. apply by_player_id_true in Hd.
      unfold by_player_id. apply String.eqb_neq. congruence.
Qed.

Lemma update_customization_outcome_witness :
  update_customization 50 "p1" CarCustomizationUpdate.empty db_alice_car
  = (Raise (HTTPException 400 "No valid fields to update"), db_alice_car)
  /\ update_customization 50 "p1" red_wheels db_alice
     = (Raise (HTTPException 404 "Customization not found"), db_alice)
  /\ exists updated cs,
       update_customization 50 "p1" red_wheels db_alice_car
       = (Return updated, mkDB (players db_alice_car) cs
                               (matches db_alice_car))
       /\ CarCustomization.updated_at updated = 50
       /\ CarCustomization.wheels updated = "spiked"
       /\ CarCustomization.car_model updated = "octane".
Proof.
  split; [|split].
  - apply (proj1 (update_customization_outcome
                    50 "p1" CarCustomizationUpdate.empty db_alice_car)).
    reflexivity.
  - apply (proj1 (proj2 (update_customization_outcome
                           50 "p1" red_wheels db_alice)));
      reflexivity.
  - destruct (proj2 (proj2 (update_customization_outcome
                              50 "p1" red_wheels db_alice_car))
                    eq_refl alice_car eq_refl)
      as (updated & cs & Hu & _ & _ & _ & Hat & Hcm & _ & _ & Hwh & _).
    exists updated, cs. repeat split; assumption.
Defined.

(** X17.  After [get_customization] for a player, an [update_customization]
    for that player that supplies a field succeeds: it returns a record of
    that player stamped with the time of the update. *)
Theorem get_customization_then_update new_id now player_id db now' updates :
  CarCustomizationUpdate.is_empty updates = false ->
  exists updated,
    fst (update_customization
           now' player_id updates
           (snd (get_customization new_id now player_id db)))
    = Return updated
    /\ CarCustomization.player_id updated = player_id
    /\ CarCustomization.updated_at updated = now'.
Proof.
  intros He.
  destruct (get_customization_stored new_id now player_id db)
    as (custom & _ & Hstored).
  destruct (update_customization_cases
              now' player_id updates
              (snd (get_customization new_id now player_id db)))
    as [(He' & _) | [(_ & Hc & _) | (custom' & _ & Hc & ->)]];
    try congruence.
  eexists. split; [reflexivity|]. split; [|reflexivity].
  apply find_some in Hc. apply by_player_id_true, Hc.
Qed.

Lemma get_customization_then_update_witness :
  exists updated,
    fst (update_customization
           50 "p1" red_wheels
           (snd (get_customization "c1" 10 "p1" db_alice)))
    = Return updated
    /\ CarCustomization.player_id updated = "p1"
    /\ CarCustomization.updated_at updated = 50.
Proof.
  apply (get_customization_then_update "c1" 10 "p1" db_alice 50 red_wheels).
  reflexivity.
Defined.

(** ** One customization per player *)

Lemma find_one_by_player_id_none i cs :
  find_one (by_player_id i) cs = None ->
  ~ In i (map CarCustomization.player_id cs).
Proof.
  intros Hf Hin. apply in_map_iff in Hin. destruct Hin as (c & Hc & Hin).
  pose proof (find_none _ _ Hf c Hin) as Hno.
  apply by_player_id_true in Hc. congruence.
Qed.

Lemma unique_appended i (c : CarCustomization.t) cs :
  CarCustomization.player_id c = i ->
  find_one (by_player_id i) cs = None ->
  NoDup (map CarCustomization.player_id cs) ->
  NoDup (map CarCustomization.player_id (insert_one c cs)).
Proof.
  intros Hi Hf Hu. unfold insert_one. rewrite map_app. cbn [map].
  apply (Permutation_NoDup (Permutation_cons_append _ _)).
  constructor; [|exact Hu].
  rewrite Hi. apply find_one_by_player_id_none, Hf.
Qed.

(** X18.  If no two stored customizations belong to the same player, none do
    after [get_customization], [create_customization] or
    [update_customization], whatever their input and outcome. *)
Theorem unique_customizations_kept db :
  unique_customizations db ->
  (forall new_id now player_id,
      unique_customizations (snd (get_customization new_id now player_id db)))
  /\ (forall new_id now custom_data,
         unique_customizations
           (snd (create_customization new_id now custom_data db)))
  /\ (forall now player_id updates,
         unique_customizations
           (snd (update_customization now player_id updates db))).
Proof.
  unfold unique_customizations. intros Hu. split; [|split].
  - intros new_id now player_id. unfold get_customization.
    destruct (find_one _ (customizations db)) as [custom|] eqn:Hf;
      cbn [snd customizations]; [exact Hu|].
    apply (unique_appended player_id); [reflexivity | exact Hf | exact Hu].
  - intros new_id now custom_data. unfold create_customization.
    destruct (find_one _ (customizations db)) as [custom|] eqn:Hf;
      cbn [snd customizations]; [exact Hu|].
    destruct (new_customization new_id now custom_data) as [c|e] eqn:Hn;
      cbn [snd customizations]; [|exact Hu].
    apply (unique_appended (CarCustomizationCreate.player_id custom_data));
      [apply (new_customization_player_id _ _ _ _ Hn) | exact Hf | exact Hu].
  - intros now player_id updates.
    destruct (update_customization_cases now player_id updates db)
      as [(_ & ->) | [(_ & _ & ->) | (custom & _ & _ & ->)]];
      cbn [snd customizations]; try exact Hu.
    rewrite map_update_one by (intros d; reflexivity). exact Hu.
Qed.

Lemma unique_customizations_kept_witness :
  (forall new_id now player_id,
      unique_customizations
        (snd (get_customization new_id now player_id db_alice_car)))
  /\ (forall new_id now custom_data,
         unique_customizations
           (snd (create_customization new_id now custom_data db_alice_car)))
  /\ (forall now player_id updates,
         unique_customizations
           (snd (update_customization now player_id updates db_alice_car))).
Proof.
  apply (unique_customizations_kept db_alice_car).
  unfold unique_customizations. simpl. constructor; [intros [] | constructor].
Defined.

(** ** Match history *)

Lemma In_firstn {A : Type} (x : A) n l : In x (firstn n l) -> In x l.
Proof.
  intros Hin. rewrite <- (firstn_skipn n l). apply in_or_app. left.
  exact Hin.
Qed.

Lemma of_player_true i m : of_player i m = true <-> MatchResult.player_id m = i.
Proof. unfold of_player. apply String.eqb_eq. Qed.

(** X19.  For a limit [n] from 0 up to the largest integer the store takes,
    [get_player_matches] returns at most [n] records, each a stored match
    of the requested player, most recent first; when [n] covers the
    player's matches, all of them are returned.  Without a limit it answers
    as for a limit of 10. *)
Theorem get_player_matches_sound player_id n db :
  (0 <= n < 2 ^ 63 ->
   exists history,
     get_player_matches player_id (Some n) db = Return history
     /\ (List.length history <= Z.to_nat n)%nat
     /\ (forall m, In m history ->
                   In m (matches db) /\ MatchResult.player_id m = player_id)
     /\ Sorted Z.ge (map MatchResult.timestamp history)
     /\ (Z.of_nat (List.length (filter (of_player player_id) (matches db)))
         <= n ->
         Permutation (filter (of_player player_id) (matches db)) history))
  /\ get_player_matches player_id None db
     = get_player_matches player_id (Some 10) db.
Proof.
  split; [|reflexivity].
  intros Hn. unfold get_player_matches. cbn [limit_or_default].
  rewrite to_list_in_range by exact Hn.
  eexists. split; [reflexivity|].
  split; [apply firstn_le_length|].
  split; [|split].
  - intros m Hm. apply In_firstn in Hm.
    apply (Permutation_in _ (Permutation_sym (sort_desc_perm _ _))) in Hm.
    apply filter_In in Hm. destruct Hm as [Hin Hof].
    split; [exact Hin | apply of_player_true, Hof].
  - rewrite <- firstn_map. apply firstn_sorted, sort_desc_sorted.
  - intros Hcover. rewrite firstn_all2.
    + apply sort_desc_perm.
    + rewrite <- (Permutation_length
                    (sort_desc_perm MatchResult.timestamp _)).
      lia.
Qed.

Lemma get_player_matches_sound_witness :
  exists history,
    get_player_matches "p1" (Some 1) db_ledger = Return history
    /\ (List.length history <= Z.to_nat 1)%nat
    /\ (forall m, In m history ->
                  In m (matches db_ledger) /\ MatchResult.player_id m = "p1")
    /\ Sorted Z.ge (map MatchResult.timestamp history)
    /\ (Z.of_nat (List.length (filter (of_player "p1") (matches db_ledger)))
        <= 1 ->
        Permutation (filter (of_player "p1") (matches db_ledger)) history).
Proof.
  apply (proj1 (get_player_matches_sound "p1" 1 db_ledger)).
  vm_compute. split; [discriminate | reflexivity].
Defined.

(** X20.  Recording a match for one player leaves the match history of
    every other player as it was. *)
Theorem create_match_result_other_history new_id now match_data db
    player_id limit :
  player_id <> MatchResultCreate.player_id match_data ->
  get_player_matches player_id limit
                     (snd (create_match_result new_id now match_data db))
  = get_player_matches player_id limit db.
Proof.
  intros Hother. unfold get_player_matches.
  destruct (create_match_result_shape new_id now match_data db)
    as (ps & ms & -> & [-> | ->] & _); cbn [matches]; [reflexivity|].
  unfold insert_one. rewrite filter_app. cbn [filter].
  replace (of_player player_id (new_match new_id now match_data))
    with false.
  - rewrite app_nil_r. reflexivity.
  - symmetry. unfold of_player. apply String.eqb_neq. simpl. congruence.
Qed.

Lemma create_match_result_other_history_witness :
  get_player_matches "p2" None
                     (snd (create_match_result "m4" 400 alice_loses db_ledger))
  = get_player_matches "p2" None db_ledger.
Proof.
  apply (create_match_result_other_history "m4" 400 alice_loses db_ledger
                                           "p2" None).
  discriminate.
Defined.

(** ** The head of the leaderboard *)

Lemma sorted_head_max (x : Z) l :
  Sorted Z.ge (x :: l) -> forall y, In y (x :: l) -> y <= x.
Proof.
  intros Hs. apply Sorted_StronglySorted in Hs.
  - inversion Hs as [|? ? _ Hall]; subst.
    intros y [<- | Hy]; [lia|].
    rewrite Forall_forall in Hall. specialize (Hall y Hy). lia.
  - intros a b c Hab Hbc. lia.
Qed.

(** X21.  With a limit of at least 1 that the store takes and at least one
    player stored, the
    first entry of the leaderboard is the entry of a stored player, and no
    stored player has more wins. *)
Theorem get_leaderboard_top limit db :
  1 <= limit_or_default limit < 2 ^ 63 ->
  players db <> [] ->
  exists top rest,
    get_leaderboard limit db = Return (top :: rest)
    /\ (exists p, In p (players db) /\ top = leaderboard_entry p)
    /\ (forall p, In p (players db) ->
                  Player.wins p <= Leaderboard.wins top).
Proof.
  intros Hlimit Hne. unfold get_leaderboard.
  rewrite to_list_in_range by lia.
  pose proof (sort_desc_perm Player.wins (players db)) as Hperm.
  pose proof (sort_desc_sorted Player.wins (players db)) as Hsorted.
  destruct (sort_desc Player.wins (players db)) as [|first ranked].
  - apply Permutation_sym, Permutation_nil in Hperm. contradiction.
  - destruct (Z.to_nat (limit_or_default limit)) as [|n] eqn:Hn; [lia|].
    simpl. eexists. eexists. split; [reflexivity|]. split.
    + exists first. split; [|reflexivity].
      apply (Permutation_in _ (Permutation_sym Hperm)). left. reflexivity.
    + intros p Hp. simpl.
      apply (sorted_head_max _ _ Hsorted).
      change (In (Player.wins p) (map Player.wins (first :: ranked))).
      apply in_map, (Permutation_in _ Hperm), Hp.
Qed.

Lemma get_leaderboard_top_witness :
  exists top rest,
    get_leaderboard (Some 1) db_three = Return (top :: rest)
    /\ (exists p, In p (players db_three) /\ top = leaderboard_entry p)
    /\ (forall p, In p (players db_three) ->
                  Player.wins p <= Leaderboard.wins top).
Proof.
  apply (get_leaderboard_top (Some 1) db_three).
  - simpl. lia.
  - discriminate.
Defined.

(** X22.  When the limit is at least the number of players and is one the
    store takes, every stored
    player has its entry on the leaderboard, once. *)
Theorem get_leaderboard_everyone limit db :
  Z.of_nat (List.length (players db)) <= limit_or_default limit < 2 ^ 63 ->
  exists board,
    get_leaderboard limit db = Return board
    /\ Permutation (map leaderboard_entry (players db)) board.
Proof.
  intros Hcover. unfold get_leaderboard.
  rewrite to_list_in_range by lia.
  eexists. split; [reflexivity|].
  rewrite firstn_all2.
  - apply Permutation_map, sort_desc_perm.
  - rewrite <- (Permutation_length (sort_desc_perm Player.wins _)). lia.
Qed.

Lemma get_leaderboard_everyone_witness :
  exists board,
    get_leaderboard None db_three = Return board
    /\ Permutation (map leaderboard_entry (players db_three)) board.
Proof.
  apply (get_leaderboard_everyone None db_three).
  simpl. lia.
Defined.

(** X23.  A submitted match whose integers fit the store and that is more
    recent than every stored one heads the match history of its player for
    any limit from 1 up to the largest integer the store takes, and without
    a limit, whether the player exists or not and even when the request
    itself failed on the player's statistics. *)
Theorem create_match_result_heads_history new_id now match_data db n :
  (forall m, In m (matches db) -> MatchResult.timestamp m < now) ->
  match_fits match_data ->
  1 <= n < 2 ^ 63 ->
  (exists older,
      get_player_matches (MatchResultCreate.player_id match_data) (Some n)
                         (snd (create_match_result new_id now match_data db))
      = Return (new_match new_id now match_data :: older))
  /\ (exists older,
         get_player_matches
           (MatchResultCreate.player_id match_data) None
           (snd (create_match_result new_id now match_data db))
         = Return (new_match new_id now match_data :: older)).
Proof.
  intros Hrecent Hm Hn.
  assert (Hhead : forall k, 1 <= k < 2 ^ 63 ->
    exists older,
      to_list k
        (sort_desc MatchResult.timestamp
           (filter (of_player (MatchResultCreate.player_id match_data))
                   (matches (snd (create_match_result new_id now match_data
                                                      db)))))
      = Return (new_match new_id now match_data :: older)).
  { intros k Hk.
    rewrite (proj1 (create_match_result_frame new_id now match_data db) Hm).
    rewrite to_list_in_range by lia.
    rewrite filter_app. cbn [filter].
    replace (of_player (MatchResultCreate.player_id match_data)
                       (new_match new_id now match_data))
      with true by (symmetry; apply String.eqb_refl).
    rewrite sort_desc_newest.
    - destruct (Z.to_nat k) as [|j] eqn:Hj; [lia|].
      eexists. reflexivity.
    - intros m Hin. apply filter_In in Hin. apply Hrecent, Hin. }
  split; unfold get_player_matches; cbn [limit_or_default];
    apply Hhead; lia.
Qed.

Lemma create_match_result_heads_history_witness :
  (exists older,
      get_player_matches (MatchResultCreate.player_id alice_loses) (Some 1)
                         (snd (create_match_result "m4" 400 alice_loses
                                                   db_ledger))
      = Return (new_match "m4" 400 alice_loses :: older))
  /\ (exists older,
         get_player_matches
           (MatchResultCreate.player_id alice_loses) None
           (snd (create_match_result "m4" 400 alice_loses db_ledger))
         = Return (new_match "m4" 400 alice_loses :: older)).
Proof.
  apply (create_match_result_heads_history "m4" 400 alice_loses db_ledger 1).
  - intros m [<- | [<- | [<- | []]]]; simpl; lia.
  - fits.
  - vm_compute. split; [discriminate | reflexivity].
Defined.
